(** * BU vs BB drill: range evaluator, dealer and session driver

    A shallow embedding of [bu_vs_bb_drill.py].

    - Cards are the two-character strings of the source (['As'], ['Kd']); a
      one-character Python string such as [card[0]] is an [ascii].
    - Python exceptions are values of [exn]; a pure function that can raise
      returns a [res].
    - Code that uses the random generator, prints, reads the clock or waits
      runs in the monad [M] over a [world]: the state of [random], what was
      written to standard output, and the environment (clock, terminal,
      watcher threads, signals).
    - [random.seed] and [random.shuffle] are library code: a parameter
      [Random], with the assumption [shuffle_permutes] where it matters.
    - [time.time()] yields rationals; the rounding of float subtraction is
      not modelled (the sign of a difference is exact in both).
    - The two [while] loops take a bound [fuel] on their number of rounds; a
      run that exceeds it ends in [OutOfFuel].
    - The watcher thread of [wait_for_key_with_timeout] advances one loop
      round at a time, when the environment schedules it.
    - [argparse] is not modelled: [main] takes the parsed arguments.  The
      imports of [termios], [tty] and [select] are taken to succeed. *)

From Stdlib Require Import Ascii String List Bool Arith ZArith QArith Lia.
From Stdlib Require Import Permutation DecimalString Lqa.
Import ListNotations.
Local Open Scope nat_scope.
Local Open Scope string_scope.

(** ** Exceptions and the error monad *)

Inductive exn : Type :=
| IndexError            (* string or list index out of range *)
| ValueError            (* str.index: substring not found *)
| KeyError              (* dict lookup of a missing key *)
| UnsupportedOperation  (* io.UnsupportedOperation, from sys.stdin.fileno() *)
| TermiosError          (* termios.error, from tcgetattr on a non-terminal *)
| KeyboardInterrupt.

Inductive res (A : Type) : Type :=
| Ok (a : A)
| Raise (e : exn).
Arguments Ok {A} a.
Arguments Raise {A} e.

Definition res_bind {A B : Type} (m : res A) (k : A -> res B) : res B :=
  match m with
  | Ok a => k a
  | Raise e => Raise e
  end.

Declare Scope res_scope.
Delimit Scope res_scope with res.
Notation "x <- m ;; k" := (res_bind m (fun x => k))
  (at level 100, m at next level, right associativity) : res_scope.
Notation "' pat <- m ;; k" := (res_bind m (fun x => match x with pat => k end))
  (at level 100, pat pattern, m at next level, right associativity) : res_scope.

(** ** Python string primitives used by the source *)

(** [s[n]] *)
Definition str_item (s : string) (n : nat) : res ascii :=
  match String.get n s with
  | Some c => Ok c
  | None => Raise IndexError
  end.

(** position of the first occurrence of the character [c] in [s] *)
Fixpoint str_find (c : ascii) (s : string) : option nat :=
  match s with
  | EmptyString => None
  | String d s' => if Ascii.eqb c d then Some 0 else option_map S (str_find c s')
  end.

(** [s.index(c)] for a one-character [c] *)
Definition str_index (s : string) (c : ascii) : res nat :=
  match str_find c s with
  | Some n => Ok n
  | None => Raise ValueError
  end.

(** [x in (a, b, ...)] on one-character strings *)
Definition char_in (c : ascii) (l : list ascii) : bool :=
  existsb (Ascii.eqb c) l.

(** ** Range logic *)

Definition RANKS : string := "23456789TJQKA".
Definition SUITS : string := "shdc".

Definition rank_value (r : ascii) : res nat := str_index RANKS r.

Definition normalize_cards (card1 card2 : string)
  : res (ascii * ascii * bool * bool) :=
  (r1 <- str_item card1 0 ;;
   s1 <- str_item card1 1 ;;
   r2 <- str_item card2 0 ;;
   s2 <- str_item card2 1 ;;
   let pair' := Ascii.eqb r1 r2 in
   let suited := Ascii.eqb s1 s2 in
   v1 <- rank_value r1 ;;
   v2 <- rank_value r2 ;;
   if (v2 <? v1)%nat then Ok (r1, r2, suited, pair')
   else Ok (r2, r1, suited, pair'))%res.

Definition in_suited_rules (hi lo : ascii) : res bool :=
  (lo_val <- rank_value lo ;;
   if char_in hi ["A"; "K"; "Q"]%char then Ok true
   else if Ascii.eqb hi "J" then (v <- rank_value "4" ;; Ok (v <=? lo_val)%nat)
   else if Ascii.eqb hi "T" then (v <- rank_value "6" ;; Ok (v <=? lo_val)%nat)
   else if Ascii.eqb hi "9" then (v <- rank_value "6" ;; Ok (v <=? lo_val)%nat)
   else if Ascii.eqb hi "8" then (v <- rank_value "5" ;; Ok (v <=? lo_val)%nat)
   else if Ascii.eqb hi "7" then (v <- rank_value "5" ;; Ok (v <=? lo_val)%nat)
   else if Ascii.eqb hi "6" then (v <- rank_value "4" ;; Ok (v <=? lo_val)%nat)
   else if Ascii.eqb hi "5" then (v <- rank_value "3" ;; Ok (v <=? lo_val)%nat)
   else if Ascii.eqb hi "4" then Ok (Ascii.eqb lo "3")
   else Ok false)%res.

Definition in_offsuit_rules (hi lo : ascii) : res bool :=
  (if Ascii.eqb hi "A" then
     l <- rank_value lo ;; v <- rank_value "3" ;; Ok (v <=? l)%nat
   else if Ascii.eqb hi "K" then
     l <- rank_value lo ;; v <- rank_value "8" ;; Ok (v <=? l)%nat
   else if Ascii.eqb hi "Q" then
     l <- rank_value lo ;; v <- rank_value "8" ;; Ok (v <=? l)%nat
   else if Ascii.eqb hi "J" then
     l <- rank_value lo ;; v <- rank_value "8" ;; Ok (v <=? l)%nat
   else if Ascii.eqb hi "T" then
     l <- rank_value lo ;; v <- rank_value "8" ;; Ok (v <=? l)%nat
   else Ok (Ascii.eqb hi "9" && Ascii.eqb lo "8"))%res.

Definition is_btn_open_45 (card1 card2 : string) : res bool :=
  ('(hi, lo, suited, pair') <- normalize_cards card1 card2 ;;
   if (pair' : bool) then Ok true
   else if (suited : bool) then in_suited_rules hi lo
   else in_offsuit_rules hi lo)%res.

(** ** Dealing *)

Definition card_of (r s : ascii) : string := String r (String s EmptyString).

(** [[r + s for r in RANKS for s in SUITS]] *)
Definition fresh_deck : list string :=
  flat_map (fun r => map (card_of r) (list_ascii_of_string SUITS))
           (list_ascii_of_string RANKS).

(** Rank and suit characters of a card, when present. *)
Definition card_rank (c : string) : option ascii := String.get 0 c.
Definition card_suit (c : string) : option ascii := String.get 1 c.

(** A well-formed card is one of the 52 strings of the deck. *)
Definition well_formed (c : string) : Prop := In c fresh_deck.

(** Unordered hands: each two-element subset of the deck once. *)
Fixpoint unordered_pairs {A : Type} (l : list A) : list (A * A) :=
  match l with
  | [] => []
  | x :: tl => map (pair x) tl ++ unordered_pairs tl
  end.

Definition all_hands : list (string * string) := unordered_pairs fresh_deck.

(** ** The rule tables of the specification

    Written from the words of the specification (section 4.1), over face
    values 2..14, independently of [RANKS.index]; compared with the code
    below. *)

Definition spec_face (r : ascii) : nat :=
  match r with
  | "2" => 2 | "3" => 3 | "4" => 4 | "5" => 5 | "6" => 6 | "7" => 7
  | "8" => 8 | "9" => 9 | "T" => 10 | "J" => 11 | "Q" => 12 | "K" => 13
  | "A" => 14 | _ => 0
  end%char.

Definition spec_suited_table (hi lo : nat) : bool :=
  match hi with
  | 14 | 13 | 12 => true
  | 11 => 4 <=? lo
  | 10 | 9 => 6 <=? lo
  | 8 | 7 => 5 <=? lo
  | 6 => 4 <=? lo
  | 5 => 3 <=? lo
  | 4 => lo =? 3
  | _ => false
  end%nat.

Definition spec_offsuit_table (hi lo : nat) : bool :=
  match hi with
  | 14 => 3 <=? lo
  | 13 | 12 | 11 | 10 => 8 <=? lo
  | 9 => lo =? 8
  | _ => false
  end%nat.

Definition spec_is_in_range (c1 c2 : string) : bool :=
  match card_rank c1, card_suit c1, card_rank c2, card_suit c2 with
  | Some r1, Some s1, Some r2, Some s2 =>
      let hi := Nat.max (spec_face r1) (spec_face r2) in
      let lo := Nat.min (spec_face r1) (spec_face r2) in
      if Ascii.eqb r1 r2 then true
      else if Ascii.eqb s1 s2 then spec_suited_table hi lo
      else spec_offsuit_table hi lo
  | _, _, _, _ => false
  end.

(** Input validation as the specification words it: the rank character is
    one of [RANKS], the suit character one of [SUITS]. *)
Definition rank_ok (c : string) : bool :=
  match card_rank c with
  | Some r => char_in r (list_ascii_of_string RANKS)
  | None => false
  end.

Definition suit_ok (c : string) : bool :=
  match card_suit c with
  | Some s => char_in s (list_ascii_of_string SUITS)
  | None => false
  end.

(** ** The random module

    [random.seed] and [random.shuffle] belong to the Python library, not to
    this program: the development is parametric in them.  The generator
    state is passed explicitly. *)

Class Random : Type := {
  rng_state : Type;
  random_seed : Z -> rng_state;
  random_shuffle : forall A : Type, list A -> rng_state -> list A * rng_state
}.

(** What the library promises of [shuffle]: the list is rearranged in
    place, nothing is added or lost. *)
Definition shuffle_permutes (R : Random) : Prop :=
  forall (A : Type) (l : list A) (g : rng_state),
    Permutation l (fst (random_shuffle A l g)).

(** ** The terminal, the clock and the watcher threads *)

Inductive tty_mode : Type := Cooked | Raw.

(** A thread running [check_keypress], between two of its steps. *)
Inductive watcher : Type :=
| AtEntry                             (* started, body not entered yet *)
| Polling (old_settings : tty_mode)   (* inside [try], at the head of the loop *)
| Returning (old_settings : tty_mode) (* event set, [finally] still to run *)
| Returned
| Died (e : exn).                     (* left by an uncaught exception *)

(** Everything outside the program that a wait depends on.  [clock n] is
    the [n]-th reading of [time.time()], in seconds; [keys] lists what the
    successive [select]/[read] rounds on the terminal will yield ([None]:
    nothing within the 0.1 s); [sched] says which threads run, one step
    each, before each test of the countdown loop; [sigint] says at which
    [time.sleep] the operating system interrupts the main thread. *)
Record env : Type := mkEnv {
  clock : nat -> Q;
  ticks : nat;
  has_fileno : bool;
  is_tty : bool;
  tty : tty_mode;
  keys : list (option ascii);
  events : list bool;
  threads : list (watcher * nat);
  excepthook : list exn;
  sched : list (list nat);
  sigint : list bool
}.

Definition set_ticks (n : nat) (e : env) : env :=
  mkEnv (clock e) n (has_fileno e) (is_tty e) (tty e) (keys e) (events e)
        (threads e) (excepthook e) (sched e) (sigint e).
Definition set_tty (m : tty_mode) (e : env) : env :=
  mkEnv (clock e) (ticks e) (has_fileno e) (is_tty e) m (keys e) (events e)
        (threads e) (excepthook e) (sched e) (sigint e).
Definition set_keys (k : list (option ascii)) (e : env) : env :=
  mkEnv (clock e) (ticks e) (has_fileno e) (is_tty e) (tty e) k (events e)
        (threads e) (excepthook e) (sched e) (sigint e).
Definition set_events (v : list bool) (e : env) : env :=
  mkEnv (clock e) (ticks e) (has_fileno e) (is_tty e) (tty e) (keys e) v
        (threads e) (excepthook e) (sched e) (sigint e).
Definition set_threads (t : list (watcher * nat)) (e : env) : env :=
  mkEnv (clock e) (ticks e) (has_fileno e) (is_tty e) (tty e) (keys e)
        (events e) t (excepthook e) (sched e) (sigint e).
Definition set_excepthook (x : list exn) (e : env) : env :=
  mkEnv (clock e) (ticks e) (has_fileno e) (is_tty e) (tty e) (keys e)
        (events e) (threads e) x (sched e) (sigint e).
Definition set_sched (s : list (list nat)) (e : env) : env :=
  mkEnv (clock e) (ticks e) (has_fileno e) (is_tty e) (tty e) (keys e)
        (events e) (threads e) (excepthook e) s (sigint e).
Definition set_sigint (s : list bool) (e : env) : env :=
  mkEnv (clock e) (ticks e) (has_fileno e) (is_tty e) (tty e) (keys e)
        (events e) (threads e) (excepthook e) (sched e) s.

(** [l[i] = v] on a list, nothing out of range *)
Fixpoint list_set {A : Type} (i : nat) (v : A) (l : list A) : list A :=
  match l, i with
  | [], _ => []
  | _ :: tl, O => v :: tl
  | x :: tl, S i' => x :: list_set i' v tl
  end.

(** [check_keypress], one step at a time: from the entry to the head of the
    loop, then one round of the [while] loop per step.  [key_pressed] is the
    index of the [threading.Event] the closure captured.  [tty.setraw]
    switches off the terminal's signal keys, so that in raw mode Ctrl-C is
    read as the character of code 3.  Leaving the [try] block, by [return]
    or by an exception, runs the [finally] clause, which puts the terminal
    back to [old_settings].  On SPACE or ENTER [key_pressed.set()] comes
    before the [return]: the main thread can see the event while the
    [finally] clause has not run yet and the terminal is still in raw mode,
    so that clause is a step of its own.  Between [raise] and the [finally]
    clause nothing changes that the main thread reads, and they are one
    step. *)
Definition check_keypress (key_pressed : nat) (st : watcher) (e : env)
  : watcher * env :=
  match st with
  | AtEntry =>
      if negb (has_fileno e) then (Returned, e)
      else if negb (is_tty e) then (Died TermiosError, e)
      else (Polling (tty e), set_tty Raw e)
  | Polling old_settings =>
      if nth key_pressed (events e) false
      then (Returned, set_tty old_settings e)
      else
        match keys e with
        | [] => (Polling old_settings, e)
        | None :: rest => (Polling old_settings, set_keys rest e)
        | Some ch :: rest =>
            let e := set_keys rest e in
            if Ascii.eqb ch "003"
            then (Died KeyboardInterrupt, set_tty old_settings e)
            else if char_in ch [" "; "013"; "010"]%char
            then (Returning old_settings,
                  set_events (list_set key_pressed true (events e)) e)
            else (Polling old_settings, e)
        end
  | Returning old_settings => (Returned, set_tty old_settings e)
  | Returned => (Returned, e)
  | Died x => (Died x, e)
  end.

(** One step of thread [i] of the pool.  An exception that leaves the
    thread's target ends that thread only: [threading] hands it to
    [threading.excepthook], which reports it, and it is never raised in
    the thread that called [start]. *)
Definition thread_step (i : nat) (e : env) : env :=
  match nth_error (threads e) i with
  | Some (Returned, _) | Some (Died _, _) | None => e
  | Some (st, ev) =>
      let '(st', e') := check_keypress ev st e in
      let e' := set_threads (list_set i (st', ev) (threads e')) e' in
      match st' with
      | Died x => set_excepthook (excepthook e' ++ [x]) e'
      | _ => e'
      end
  end.

(** The threads scheduled before the next test of the countdown loop. *)
Definition run_scheduled (e : env) : env :=
  match sched e with
  | [] => e
  | now :: later => fold_left (fun e i => thread_step i e) now (set_sched later e)
  end.

(** ** The state of a run and its monad *)

(** The process-wide generator of [random], what was written to standard
    output (one entry per [print] call, oldest first) and the
    environment. *)
Record world {R : Random} : Type := mkWorld {
  rng : rng_state;
  stdout : list string;
  environ : env
}.

(** A computation returns, raises, or is cut short by the bound put on its
    [while] loops. *)
Inductive outcome {R : Random} (A : Type) : Type :=
| Ret (a : A) (w : world)
| Exn (e : exn) (w : world)
| OutOfFuel.
Arguments Ret {R A} a w.
Arguments Exn {R A} e w.
Arguments OutOfFuel {R A}.

Definition M {R : Random} (A : Type) : Type := world -> outcome A.

Definition ret {R : Random} {A : Type} (a : A) : M A := fun w => Ret a w.

Definition bind {R : Random} {A B : Type} (m : M A) (k : A -> M B) : M B :=
  fun w =>
    match m w with
    | Ret a w' => k a w'
    | Exn e w' => Exn e w'
    | OutOfFuel => OutOfFuel
    end.

Definition lift {R : Random} {A : Type} (r : res A) : M A :=
  fun w => match r with Ok a => Ret a w | Raise e => Exn e w end.

Declare Scope io_scope.
Delimit Scope io_scope with io.
Notation "x <- m ;; k" := (bind m (fun x => k))
  (at level 100, m at next level, right associativity) : io_scope.
Notation "' pat <- m ;; k" := (bind m (fun x => match x with pat => k end))
  (at level 100, pat pattern, m at next level, right associativity) : io_scope.
Notation "m ;; k" := (bind m (fun _ => k))
  (at level 100, right associativity) : io_scope.

Section Program.
Context {R : Random}.

Definition with_env (f : env -> env) : M unit :=
  fun w => Ret tt (mkWorld R (rng w) (stdout w) (f (environ w))).

(** [random.seed(seed)] *)
Definition seed_random (seed : Z) : M unit :=
  fun w => Ret tt (mkWorld R (random_seed seed) (stdout w) (environ w)).

(** [random.shuffle(deck)], returning the rearranged list *)
Definition shuffle (deck : list string) : M (list string) :=
  fun w =>
    let '(deck', g) := random_shuffle string deck (rng w) in
    Ret deck' (mkWorld R g (stdout w) (environ w)).

(** [print(s, end=e)] *)
Definition print_end (s e : string) : M unit :=
  fun w => Ret tt (mkWorld R (rng w) (stdout w ++ [s ++ e]) (environ w)).

Definition NL : string := String "010" EmptyString.
Definition CR : string := String "013" EmptyString.
Definition TAB : string := String "009" EmptyString.
Definition ESC : string := String "027" EmptyString.

Definition print (s : string) : M unit := print_end s NL.

(** [time.time()] *)
Definition time_time : M Q :=
  fun w =>
    let e := environ w in
    Ret (clock e (ticks e))
        (mkWorld R (rng w) (stdout w) (set_ticks (S (ticks e)) e)).

(** [time.sleep(0.1)]; an interrupt signal sent to the process while the
    main thread sleeps raises [KeyboardInterrupt] there. *)
Definition time_sleep : M unit :=
  fun w =>
    let e := environ w in
    match sigint e with
    | [] => Ret tt w
    | hit :: later =>
        let w' := mkWorld R (rng w) (stdout w) (set_sigint later e) in
        if (hit : bool) then Exn KeyboardInterrupt w' else Ret tt w'
    end.

(** [threading.Event()]: a fresh flag, unset *)
Definition new_event : M nat :=
  fun w =>
    let e := environ w in
    Ret (length (events e))
        (mkWorld R (rng w) (stdout w) (set_events (events e ++ [false]) e)).

Definition event_is_set (ev : nat) : M bool :=
  fun w => Ret (nth ev (events (environ w)) false) w.

(** [threading.Thread(target=check_keypress, daemon=True).start()] *)
Definition thread_start (key_pressed : nat) : M unit :=
  with_env (fun e => set_threads (threads e ++ [(AtEntry, key_pressed)]) e).

(** ** Python values *)

(** [l[n]] on a list *)
Definition list_item {A : Type} (l : list A) (n : nat) : res A :=
  match nth_error l n with
  | Some x => Ok x
  | None => Raise IndexError
  end.

(** [l[a:b]] for [0 <= a <= b] *)
Definition slice {A : Type} (l : list A) (a b : nat) : list A :=
  firstn (b - a) (skipn a l).

(** [range(a, b)] *)
Definition py_range (a b : Z) : list Z :=
  map (fun k => (a + Z.of_nat k)%Z) (seq 0 (Z.to_nat (b - a))).

(** [str(n)] on an integer *)
Definition str_of_int (n : Z) : string := NilZero.string_of_int (Z.to_int n).

(** [' ' * n] *)
Fixpoint spaces (n : nat) : string :=
  match n with
  | O => EmptyString
  | S n' => String " " (spaces n')
  end.

(** [f"{n:2d}"]: right-aligned in a field of two characters *)
Definition fmt_2d (n : Z) : string :=
  let s := str_of_int n in spaces (2 - String.length s) ++ s.

(** [int(x)] on a float: rounding toward zero *)
Definition int_of (x : Q) : Z := Z.quot (Qnum x) (Zpos (Qden x)).

Definition Qltb (x y : Q) : bool :=
  match Qcompare x y with
  | Lt => true
  | _ => false
  end.

(** [d[k]] on a dictionary with one-character keys *)
Fixpoint dict_item (d : list (ascii * string)) (k : ascii) : res string :=
  match d with
  | [] => Raise KeyError
  | (k', v) :: tl => if Ascii.eqb k k' then Ok v else dict_item tl k
  end.

(** ** Dealing, continued *)

(** The [while True] loop of [deal_btn_open_and_board], at most [fuel]
    attempts. *)
Fixpoint deal_attempts (fuel : nat) : M ((string * string) * list string) :=
  match fuel with
  | O => fun _ => OutOfFuel
  | S fuel' =>
      (deck <- shuffle fresh_deck ;;
       c1 <- lift (list_item deck 0) ;;
       c2 <- lift (list_item deck 1) ;;
       ok <- lift (is_btn_open_45 c1 c2) ;;
       if (ok : bool) then
         let board := slice deck 2 7 in
         ret ((c1, c2), board)
       else deal_attempts fuel')%io
  end.

Definition deal_btn_open_and_board (fuel : nat) (seed : option Z)
  : M ((string * string) * list string) :=
  (match seed with
   | Some s => seed_random s
   | None => ret tt
   end ;;
   deal_attempts fuel)%io.

(** ** CLI helpers *)

Definition SUIT_SYMBOLS : list (ascii * string) :=
  [("s"%char, "♠"); ("h"%char, "♥"); ("d"%char, "♦"); ("c"%char, "♣")].

Definition SUIT_COLORS : list (ascii * string) :=
  [("s"%char, ESC ++ "[97m"); ("h"%char, ESC ++ "[91m");
   ("d"%char, ESC ++ "[94m"); ("c"%char, ESC ++ "[92m")].

Definition RESET_COLOR : string := ESC ++ "[0m".

Definition CLEAR_COUNTDOWN : string := CR ++ spaces 20 ++ CR.

(** The countdown loop of [wait_for_key_with_timeout], at most [fuel]
    rounds.  The readings of the clock are rationals and their difference
    is exact, where the program subtracts two floats and rounds: the two
    agree on the sign of the difference and on every bound that rounding
    keeps, not on whether a difference just short of the timeout has
    reached it. *)
Fixpoint countdown (fuel : nat) (timeout_seconds : Z) (start_time : Q)
                   (key_pressed : nat) : M bool :=
  match fuel with
  | O => fun _ => OutOfFuel
  | S fuel' =>
      (with_env run_scheduled ;;
       now <- time_time ;;
       if Qltb (now - start_time) (inject_Z timeout_seconds) then
         now' <- time_time ;;
         let remaining := (timeout_seconds - int_of (now' - start_time))%Z in
         pressed <- event_is_set key_pressed ;;
         if (pressed : bool) then
           print_end CLEAR_COUNTDOWN "" ;;
           ret true
         else
           print_end (CR ++ TAB ++ TAB ++ fmt_2d remaining ++ "s") "" ;;
           time_sleep ;;
           countdown fuel' timeout_seconds start_time key_pressed
       else
         print_end CLEAR_COUNTDOWN "" ;;
         ret false)%io
  end.

Definition wait_for_key_with_timeout (fuel : nat) (timeout_seconds : Z)
  : M bool :=
  (start_time <- time_time ;;
   key_pressed <- new_event ;;
   thread_start key_pressed ;;
   countdown fuel timeout_seconds start_time key_pressed)%io.

Definition wait_for_key (fuel : nat) (prompt : string) : M unit :=
  ((if String.eqb prompt "" then ret tt else print prompt) ;;
   wait_for_key_with_timeout fuel 600 ;;
   ret tt)%io.

Definition format_card (card : string) : res string :=
  (rank <- str_item card 0 ;;
   suit <- str_item card 1 ;;
   color <- dict_item SUIT_COLORS suit ;;
   symbol <- dict_item SUIT_SYMBOLS suit ;;
   Ok (color ++ String rank symbol ++ RESET_COLOR))%res.

Fixpoint format_each (cards : list string) : res (list string) :=
  match cards with
  | [] => Ok []
  | c :: tl => (s <- format_card c ;; r <- format_each tl ;; Ok (s :: r))%res
  end.

Definition format_cards (cards : list string) : res string :=
  (l <- format_each cards ;; Ok (String.concat " " l))%res.

(** The body of [for i in range(1, args.hands + 1)], over the values [i]
    still to come. *)
Fixpoint hands_loop (fuel : nat) (todo : list Z) (seed : option Z)
                    (timeout : Z) : M unit :=
  match todo with
  | [] => ret tt
  | i :: rest =>
      ('(hand, board) <- deal_btn_open_and_board fuel seed ;;
       let seed := option_map (fun s => (s + 1)%Z) seed in
       print (NL ++ "Hand " ++ str_of_int i ++ ":") ;;
       h0 <- lift (format_card (fst hand)) ;;
       h1 <- lift (format_card (snd hand)) ;;
       print ("Preflop: " ++ h0 ++ " " ++ h1) ;;
       wait_for_key_with_timeout fuel timeout ;;
       let flop := slice board 0 3 in
       f <- lift (format_cards flop) ;;
       print ("Flop:    " ++ f) ;;
       wait_for_key_with_timeout fuel timeout ;;
       turn <- lift (list_item board 3) ;;
       t <- lift (format_card turn) ;;
       print ("Turn:    " ++ t) ;;
       wait_for_key_with_timeout fuel timeout ;;
       river <- lift (list_item board 4) ;;
       r <- lift (format_card river) ;;
       print ("River:   " ++ r) ;;
       wait_for_key_with_timeout fuel timeout ;;
       hands_loop fuel rest seed timeout)%io
  end.

(** [main], with the parsed arguments [hands], [--seed] and [--timeout]. *)
Definition main (fuel : nat) (hands : Z) (seed : option Z) (timeout : Z)
  : M unit :=
  (hands_loop fuel (py_range 1 (hands + 1)) seed timeout ;;
   print (NL ++ "Done. Good session."))%io.

(** The [if __name__ == "__main__"] block: the exit status that the block
    asks for and the final state.  An exception other than
    [KeyboardInterrupt] is not caught and ends the process with status 1.
    What the interpreter does after the block, with daemon threads that
    are still running or still reporting an exception, is not part of
    it. *)
Definition script (fuel : nat) (hands : Z) (seed : option Z) (timeout : Z)
                  (w : world) : option (Z * world) :=
  match main fuel hands seed timeout w with
  | Ret _ w' => Some (0%Z, w')
  | Exn KeyboardInterrupt w' =>
      match print (NL ++ "Stopped by user.") w' with
      | Ret _ w'' => Some (0%Z, w'')
      | _ => None
      end
  | Exn _ w' => Some (1%Z, w')
  | OutOfFuel => None
  end.

End Program.

(** ** A concrete generator

    A linear congruential generator with a shuffle that draws the elements
    one at a time.  It is not CPython's Mersenne Twister; it serves to run
    the program on examples, and every theorem below holds for any
    generator whose [shuffle] permutes. *)

Definition lcg_next (g : Z) : Z := ((g * 1103515245 + 12345) mod 2147483648)%Z.

Fixpoint extract {A : Type} (j : nat) (l : list A) : option (A * list A) :=
  match l with
  | [] => None
  | x :: tl =>
      match j with
      | O => Some (x, tl)
      | S j' =>
          match extract j' tl with
          | Some (y, rest) => Some (y, x :: rest)
          | None => None
          end
      end
  end.

Fixpoint draw_all {A : Type} (n : nat) (l : list A) (g : Z) : list A * Z :=
  match n with
  | O => (l, g)
  | S n' =>
      let j := Z.to_nat ((g / 65536) mod Z.of_nat (length l)) in
      match extract j l with
      | Some (x, rest) =>
          let '(tl, g') := draw_all n' rest (lcg_next g) in (x :: tl, g')
      | None => (l, g)
      end
  end.

Definition lcg_random : Random :=
  {| rng_state := Z;
     random_seed := fun s => (s mod 2147483648)%Z;
     random_shuffle := fun A l g => draw_all (length l) l g |}.

(** ** Observations on a run *)

(** The value a computation returned, if it returned. *)
Definition returned {R : Random} {A : Type} (o : outcome A) : option A :=
  match o with
  | Ret a _ => Some a
  | _ => None
  end.

(** What [main] itself wrote: the countdown display of
    [wait_for_key_with_timeout] is the only output that begins with a
    carriage return. *)
Definition program_lines (out : list string) : list string :=
  filter (fun s => negb (String.prefix CR s)) out.

(** The shuffle of a fresh deck made in generator state [g] puts a hand of
    the range on top. *)
Definition accepts {R : Random} (g : rng_state) : bool :=
  match fst (random_shuffle string fresh_deck g) with
  | c1 :: c2 :: _ =>
      match is_btn_open_45 c1 c2 with
      | Ok true => true
      | _ => false
      end
  | _ => false
  end.

(** The generator state after [k] shuffles of a fresh deck. *)
Fixpoint after_shuffles {R : Random} (k : nat) (g : rng_state) : rng_state :=
  match k with
  | O => g
  | S k' => after_shuffles k' (snd (random_shuffle string fresh_deck g))
  end.

(** The generator state in which [deal_btn_open_and_board] starts to
    shuffle. *)
Definition start_state {R : Random} (seed : option Z) (w : world) : rng_state :=
  match seed with
  | Some s => random_seed s
  | None => rng w
  end.

(** The deals of a session alone: the loop of [main] without its output
    and its waits. *)
Fixpoint deal_session {R : Random} (fuel : nat) (todo : list Z)
                      (seed : option Z)
  : M (list ((string * string) * list string)) :=
  match todo with
  | [] => ret []
  | _ :: rest =>
      (d <- deal_btn_open_and_board fuel seed ;;
       ds <- deal_session fuel rest (option_map (fun s => (s + 1)%Z) seed) ;;
       ret (d :: ds))%io
  end.

(** What [main] prints for hand number [i]. *)
Definition hand_lines (i : Z) (hand : string * string) (board : list string)
  : res (list string) :=
  (h0 <- format_card (fst hand) ;;
   h1 <- format_card (snd hand) ;;
   f <- format_cards (slice board 0 3) ;;
   turn <- list_item board 3 ;;
   t <- format_card turn ;;
   river <- list_item board 4 ;;
   r <- format_card river ;;
   Ok [(NL ++ "Hand " ++ str_of_int i ++ ":") ++ NL;
       ("Preflop: " ++ h0 ++ " " ++ h1) ++ NL;
       ("Flop:    " ++ f) ++ NL;
       ("Turn:    " ++ t) ++ NL;
       ("River:   " ++ r) ++ NL])%res.

Fixpoint session_lines (todo : list Z)
                       (deals : list ((string * string) * list string))
  : res (list string) :=
  match todo, deals with
  | i :: todo', (hand, board) :: deals' =>
      (l <- hand_lines i hand board ;;
       r <- session_lines todo' deals' ;;
       Ok (l ++ r)%list)%res
  | _, _ => Ok []
  end.

Definition DONE_LINE : string := (NL ++ "Done. Good session.") ++ NL.
Definition STOPPED_LINE : string := (NL ++ "Stopped by user.") ++ NL.

(** No reading of the clock is earlier than the one before. *)
Definition clock_monotone (e : env) : Prop :=
  forall n : nat, (clock e n <= clock e (S n))%Q.

(** No watcher thread has got further than finding no file descriptor. *)
Definition watchers_idle (e : env) : Prop :=
  Forall (fun t => fst t = AtEntry \/ fst t = Returned) (threads e).

(** A world with an interactive terminal: [keys] is what the user will
    type, [sched] when the watcher threads run; same clock as [headless]. *)
Definition terminal (keys : list (option ascii)) (sched : list (list nat))
  : env :=
  mkEnv (fun n => (inject_Z (Z.of_nat n) / 10)%Q) 0 true true Cooked
        keys [] [] [] sched [].

(** The same terminal, with an interrupt signal from outside the program
    reaching the main thread at the [n]-th sleep that follows. *)
Definition interrupted_after (n : nat) (e : env) : env :=
  set_sigint (repeat false n ++ [true]) e.

(** Started in a state where no interrupt signal is on its way to the
    process, [m] does not raise, and if it returns, its value satisfies
    [post] and there is still no signal on its way. *)
Definition never_raises {R : Random} {A : Type} (m : M A) (post : A -> Prop)
  : Prop :=
  forall w : world,
    sigint (environ w) = [] ->
    match m w with
    | Ret a w' => sigint (environ w') = [] /\ post a
    | Exn _ _ => False
    | OutOfFuel => True
    end.

(** From [w] to [w'] the generator was not used and [main] wrote exactly
    [ls]. *)
Definition wrote {R : Random} (w w' : world) (ls : list string) : Prop :=
  rng w' = rng w /\
  program_lines (stdout w') = (program_lines (stdout w) ++ ls)%list.

(** Relative to an earlier environment [e0]: there is still no file
    descriptor, no watcher has done anything, and the terminal, the pending
    keys and the report of thread exceptions are as they were. *)
Definition calm (e0 e : env) : Prop :=
  has_fileno e = false /\ watchers_idle e /\
  clock e = clock e0 /\ tty e = tty e0 /\ keys e = keys e0 /\
  excepthook e = excepthook e0.

(** The countdown display never showed a number of seconds. *)
Definition countdown_never_shown (out : list string) : Prop :=
  Forall (fun s => String.prefix CR s = true -> s = CLEAR_COUNTDOWN) out.

(** From [w] to [w'] the clock is the same one, no countdown was shown
    that was not shown before, and what was calm still is. *)
Definition settled {R : Random} (w w' : world) : Prop :=
  clock (environ w') = clock (environ w) /\
  (countdown_never_shown (stdout w) -> countdown_never_shown (stdout w')) /\
  (forall e0, calm e0 (environ w) -> calm e0 (environ w')).

(** The same, and the generator was not used. *)
Definition steady {R : Random} (w w' : world) : Prop :=
  rng w' = rng w /\ settled w w'.

(** The same outcome, seen from a run whose output and environment are
    [out] and [e]. *)
Definition reworld {R : Random} {A : Type} (out : list string) (e : env)
                   (o : outcome A) : outcome A :=
  match o with
  | Ret a w => Ret a (mkWorld R (rng w) out e)
  | Exn x w => Exn x (mkWorld R (rng w) out e)
  | OutOfFuel => OutOfFuel
  end.

(** A world without a terminal: standard input has no file descriptor, no
    key is ever read, the clock advances by a tenth of a second per
    reading. *)
Definition headless : env :=
  mkEnv (fun n => (inject_Z (Z.of_nat n) / 10)%Q) 0 false false Cooked
        [] [] [] [] [] [].

(** ** Observations used by the further properties *)

(** The keys that end a wait: SPACE and ENTER (carriage return or line
    feed), as [check_keypress] tests them. *)
Definition continue_key (ch : ascii) : bool :=
  char_in ch [" "; "013"; "010"]%char.

(** Membership in the range as a boolean; a call that raises counts as
    [false]. *)
Definition in_range_b (c1 c2 : string) : bool :=
  match is_btn_open_45 c1 c2 with
  | Ok true => true
  | _ => false
  end.

(** The first two characters of a string, or the whole string if it is
    shorter. *)
Definition first_two (c : string) : string :=
  match c with
  | String r (String s _) => String r (String s EmptyString)
  | _ => c
  end.

(** The five lines of hand number [i]: the header, then the four streets
    in order. *)
Definition street_block (i : Z) (ls : list string) : Prop :=
  exists p f t r : string,
    ls = [(NL ++ "Hand " ++ str_of_int i ++ ":") ++ NL;
          ("Preflop: " ++ p) ++ NL;
          ("Flop:    " ++ f) ++ NL;
          ("Turn:    " ++ t) ++ NL;
          ("River:   " ++ r) ++ NL].

(** [m] raises nothing but [KeyboardInterrupt], and if it returns, the
    value satisfies [Q]. *)
Definition interrupt_only {R : Random} {A : Type} (m : M A) (Q : A -> Prop)
  : Prop :=
  forall w,
    match m w with
    | Ret a _ => Q a
    | Exn e _ => e = KeyboardInterrupt
    | OutOfFuel => True
    end.

(** No key of [ks] is SPACE or ENTER. *)
Definition no_continue_key (ks : list (option ascii)) : Prop :=
  Forall (fun k => match k with
                   | Some ch => continue_key ch = false
                   | None => True
                   end) ks.

(** The only watcher thread is the one with event [kp], started on a
    terminal in mode [m0]: the terminal is in raw mode exactly while that
    watcher is inside its [try] block, and the event is unset unless the
    watcher has read SPACE or ENTER. *)
Definition lone_watcher (m0 : tty_mode) (kp : nat) (e : env) : Prop :=
  has_fileno e = true /\ is_tty e = true /\
  exists st, threads e = [(st, kp)] /\
    match st with
    | AtEntry => tty e = m0 /\ nth kp (events e) false = false
    | Polling old => old = m0 /\ tty e = Raw /\ nth kp (events e) false = false
    | Returning old => old = m0 /\ tty e = Raw
    | Returned => tty e = m0
    | Died x =>
        x = KeyboardInterrupt /\ tty e = m0 /\ nth kp (events e) false = false
    end.

(** One frame of the countdown display, [f"\r\t\t{remaining:2d}s"]. *)
Definition countdown_frame (remaining : Z) : string :=
  CR ++ TAB ++ TAB ++ fmt_2d remaining ++ "s".


(** [m] keeps [Inv] true of the environment, whether it returns or
    raises. *)
Definition keeps {R : Random} {A : Type} (Inv : env -> Prop) (m : M A) : Prop :=
  forall w, Inv (environ w) ->
    match m w with
    | Ret _ w' => Inv (environ w')
    | Exn _ w' => Inv (environ w')
    | OutOfFuel => True
    end.

(* ================================================================== *)
(** * Properties *)

(** ** Strings *)

Lemma str_find_inj (s : string) (c d : ascii) (n : nat) :
  str_find c s = Some n -> str_find d s = Some n -> c = d.
Proof.
  revert n; induction s as [|a s IH]; intros n; simpl; [discriminate|].
  destruct (Ascii.eqb_spec c a) as [->|Hc], (Ascii.eqb_spec d a) as [->|Hd];
    try congruence.
  - destruct (str_find d s); simpl; congruence.
  - destruct (str_find c s); simpl; congruence.
  - destruct (str_find c s) as [i|] eqn:Ec, (str_find d s) as [j|] eqn:Ed;
      simpl; try discriminate.
    intros [= <-] [= ->]. eauto.
Qed.

Lemma str_find_In (s : string) (c : ascii) :
  In c (list_ascii_of_string s) <-> exists n, str_find c s = Some n.
Proof.
  induction s as [|a s IH]; simpl.
  - split; [tauto | intros [n H]; discriminate].
  - destruct (Ascii.eqb_spec c a) as [->|Hc].
    + split; eauto.
    + rewrite IH. split.
      * intros [H|[n H]]; [congruence | rewrite H; simpl; eauto].
      * intros [n H]. right. destruct (str_find c s); [eauto | discriminate].
Qed.

Lemma rank_value_Ok (r : ascii) :
  In r (list_ascii_of_string RANKS) -> exists v, rank_value r = Ok v.
Proof.
  intros H. apply str_find_In in H as [n H].
  exists n. unfold rank_value, str_index. now rewrite H.
Qed.

Lemma rank_value_Raise (r : ascii) :
  ~ In r (list_ascii_of_string RANKS) -> rank_value r = Raise ValueError.
Proof.
  intros H. unfold rank_value, str_index.
  destruct (str_find r RANKS) as [n|] eqn:E; [|reflexivity].
  exfalso. apply H, str_find_In. eauto.
Qed.

Lemma rank_value_exn (r : ascii) (e : exn) :
  rank_value r = Raise e -> e = ValueError.
Proof.
  unfold rank_value, str_index. destruct (str_find r RANKS); congruence.
Qed.

Lemma rank_value_inj (r1 r2 : ascii) (v : nat) :
  rank_value r1 = Ok v -> rank_value r2 = Ok v -> r1 = r2.
Proof.
  unfold rank_value, str_index.
  destruct (str_find r1 RANKS) eqn:E1, (str_find r2 RANKS) eqn:E2;
    try discriminate.
  intros [= ->] [= ->]. eapply str_find_inj; eauto.
Qed.

(** ** The deck *)

Lemma well_formed_card_of (c : string) :
  well_formed c <->
  exists r s, c = card_of r s /\ In r (list_ascii_of_string RANKS)
              /\ In s (list_ascii_of_string SUITS).
Proof.
  unfold well_formed, fresh_deck. rewrite in_flat_map. split.
  - intros (r & Hr & Hc). apply in_map_iff in Hc as (s & <- & Hs). eauto.
  - intros (r & s & -> & Hr & Hs). exists r. split; [assumption|].
    apply in_map_iff. eauto.
Qed.

Lemma fresh_deck_length : length fresh_deck = 52.
Proof. reflexivity. Qed.

Lemma all_hands_length : length all_hands = 1326.
Proof. reflexivity. Qed.

Lemma in_unordered_pairs {A : Type} (l : list A) (x y : A) :
  In (x, y) (unordered_pairs l) -> In x l /\ In y l.
Proof.
  induction l as [|a l IH]; simpl; [tauto|].
  rewrite in_app_iff, in_map_iff.
  intros [(z & [= <- <-] & Hz)|H]; [tauto | apply IH in H; tauto].
Qed.

Lemma unordered_pairs_cover {A : Type} (l : list A) (x y : A) :
  In x l -> In y l -> x <> y ->
  In (x, y) (unordered_pairs l) \/ In (y, x) (unordered_pairs l).
Proof.
  induction l as [|a l IH]; simpl; [tauto|].
  rewrite !in_app_iff, !in_map_iff.
  intros [->|Hx] [->|Hy] Hne; try congruence.
  - left; left; eauto.
  - right; left; eauto.
  - destruct (IH Hx Hy Hne); tauto.
Qed.

Lemma char_in_In (c : ascii) (l : list ascii) : char_in c l = true <-> In c l.
Proof.
  unfold char_in. rewrite existsb_exists. split.
  - intros (d & Hd & E). apply Ascii.eqb_eq in E. now subst.
  - intros H. exists c. split; [assumption | apply Ascii.eqb_refl].
Qed.

Lemma well_formed_checks (c : string) :
  well_formed c <->
  String.length c = 2 /\ rank_ok c = true /\ suit_ok c = true.
Proof.
  rewrite well_formed_card_of. split.
  - intros (r & s & -> & Hr & Hs).
    repeat split; [apply (proj2 (char_in_In r _) Hr) | apply (proj2 (char_in_In s _) Hs)].
  - intros (Hl & Hr & Hs).
    destruct c as [|r [|s [|x c]]]; try discriminate.
    exists r, s. repeat split;
      [apply (proj1 (char_in_In r _) Hr) | apply (proj1 (char_in_In s _) Hs)].
Qed.

Lemma well_formed_bool (c : string) :
  existsb (String.eqb c) fresh_deck = true -> well_formed c.
Proof.
  intros H. apply existsb_exists in H as (d & Hd & E).
  apply String.eqb_eq in E. now subst.
Qed.

Lemma deck_check (P : string -> string -> bool) :
  forallb (fun c1 => forallb (P c1) fresh_deck) fresh_deck = true ->
  forall c1 c2, well_formed c1 -> well_formed c2 -> P c1 c2 = true.
Proof.
  intros H c1 c2 H1 H2.
  rewrite forallb_forall in H. specialize (H c1 H1).
  rewrite forallb_forall in H. exact (H c2 H2).
Qed.

(** ** Range evaluator *)

(** On two-character strings the evaluator reads the two rank characters
    and the equality of the suit characters, nothing else. *)
Lemma is_btn_open_45_card_of (r1 s1 r2 s2 : ascii) :
  is_btn_open_45 (card_of r1 s1) (card_of r2 s2) =
  (v1 <- rank_value r1 ;;
   v2 <- rank_value r2 ;;
   if Ascii.eqb r1 r2 then Ok true
   else
     let hi := if (v2 <? v1)%nat then r1 else r2 in
     let lo := if (v2 <? v1)%nat then r2 else r1 in
     if Ascii.eqb s1 s2 then in_suited_rules hi lo
     else in_offsuit_rules hi lo)%res.
Proof.
  unfold is_btn_open_45, normalize_cards, card_of. simpl.
  destruct (rank_value r1) as [v1|]; [|reflexivity]. simpl.
  destruct (rank_value r2) as [v2|]; [|reflexivity]. simpl.
  destruct (v2 <? v1)%nat; simpl; destruct (Ascii.eqb r1 r2); reflexivity.
Qed.

(** Swapping the arguments never changes the outcome, exceptions included. *)
Lemma is_btn_open_45_swap (card1 card2 : string) :
  is_btn_open_45 card1 card2 = is_btn_open_45 card2 card1.
Proof.
  destruct card1 as [|r1 [|s1 t1]], card2 as [|r2 [|s2 t2]]; try reflexivity.
  unfold is_btn_open_45, normalize_cards. simpl.
  destruct (rank_value r1) as [v1|e1] eqn:E1, (rank_value r2) as [v2|e2] eqn:E2;
    try reflexivity;
    [|apply rank_value_exn in E1, E2; now subst].
  simpl. rewrite (Ascii.eqb_sym r2 r1), (Ascii.eqb_sym s2 s1).
  destruct (Ascii.eqb_spec r1 r2) as [->|Hr].
  - destruct (v2 <? v1)%nat, (v1 <? v2)%nat; reflexivity.
  - assert (v1 <> v2) by (intros ->; eauto using rank_value_inj).
    destruct (Nat.ltb_spec v2 v1), (Nat.ltb_spec v1 v2); try lia; reflexivity.
Qed.

Example suited_43 : is_btn_open_45 "4s" "3s" = Ok true.
Proof. reflexivity. Qed.

Example suited_42 : is_btn_open_45 "4s" "2s" = Ok false.
Proof. reflexivity. Qed.

Example offsuit_98 : is_btn_open_45 "8c" "9h" = Ok true.
Proof. reflexivity. Qed.

Example offsuit_A2 : is_btn_open_45 "Ah" "2c" = Ok false.
Proof. reflexivity. Qed.

Example card_too_short : is_btn_open_45 "A" "Kd" = Raise IndexError.
Proof. reflexivity. Qed.

Example format_card_As :
  format_card "As" = Ok (ESC ++ "[97m" ++ "A" ++ "♠" ++ ESC ++ "[0m").
Proof. reflexivity. Qed.

(** The code against the tables, by running both on the whole deck. *)
Lemma is_btn_open_45_on_deck (c1 c2 : string) :
  well_formed c1 -> well_formed c2 ->
  is_btn_open_45 c1 c2 = Ok (spec_is_in_range c1 c2).
Proof.
  intros H1 H2.
  pose (P := fun a b : string =>
    match is_btn_open_45 a b with
    | Ok v => Bool.eqb v (spec_is_in_range a b)
    | Raise _ => false
    end).
  assert (HP : P c1 c2 = true)
    by (apply deck_check; [vm_compute; reflexivity | assumption..]).
  unfold P in HP. destruct (is_btn_open_45 c1 c2) as [v|]; [|discriminate].
  apply Bool.eqb_prop in HP. now subst.
Qed.

(** C1: on every hand of two distinct well-formed cards (each of the 1326
    unordered hands, in either order) [is_btn_open_45] returns the boolean of
    the specification's rule tables: pairs always, suited and offsuit hands
    by the per-high-rank kicker thresholds. *)
Theorem is_btn_open_45_matches_tables (c1 c2 : string) :
  well_formed c1 -> well_formed c2 -> c1 <> c2 ->
  is_btn_open_45 c1 c2 = Ok (spec_is_in_range c1 c2).
Proof. intros H1 H2 _. now apply is_btn_open_45_on_deck. Qed.

Lemma is_btn_open_45_matches_tables_witness :
  is_btn_open_45 "Jh" "4h" = Ok (spec_is_in_range "Jh" "4h").
Proof.
  apply (is_btn_open_45_matches_tables "Jh" "4h").
  - apply well_formed_bool. reflexivity.
  - apply well_formed_bool. reflexivity.
  - discriminate.
Defined.

(** The same on the enumeration of the 1326 unordered hands, whichever card
    comes first. *)
Corollary all_hands_match_tables (c1 c2 : string) :
  In (c1, c2) all_hands ->
  is_btn_open_45 c1 c2 = Ok (spec_is_in_range c1 c2) /\
  is_btn_open_45 c2 c1 = Ok (spec_is_in_range c1 c2).
Proof.
  intros H. apply in_unordered_pairs in H as [H1 H2].
  rewrite (is_btn_open_45_swap c2 c1). split; now apply is_btn_open_45_on_deck.
Qed.

(** How many of the 1326 hands the range holds: 78 pairs, 228 suited and
    312 offsuit hands. *)
Lemma range_size :
  length (filter (fun h => spec_is_in_range (fst h) (snd h)) all_hands) = 618.
Proof. vm_compute. reflexivity. Qed.

(** C3: two distinct well-formed cards of equal rank are always in range,
    whatever their suits. *)
Theorem pocket_pairs_in_range (c1 c2 : string) :
  well_formed c1 -> well_formed c2 -> c1 <> c2 ->
  card_rank c1 = card_rank c2 ->
  is_btn_open_45 c1 c2 = Ok true.
Proof.
  intros H1 H2 _ Hr.
  apply well_formed_card_of in H1 as (r1 & s1 & -> & Hr1 & _).
  apply well_formed_card_of in H2 as (r2 & s2 & -> & _ & _).
  injection Hr as <-.
  rewrite is_btn_open_45_card_of.
  destruct (rank_value_Ok r1 Hr1) as [v ->]. simpl.
  now rewrite Ascii.eqb_refl.
Qed.

Lemma pocket_pairs_in_range_witness : is_btn_open_45 "2c" "2d" = Ok true.
Proof.
  apply (pocket_pairs_in_range "2c" "2d").
  - apply well_formed_bool. reflexivity.
  - apply well_formed_bool. reflexivity.
  - discriminate.
  - reflexivity.
Defined.

(** C9: [is_btn_open_45] is symmetric in its two arguments. *)
Theorem is_btn_open_45_symmetric (c1 c2 : string) :
  well_formed c1 -> well_formed c2 -> c1 <> c2 ->
  is_btn_open_45 c1 c2 = is_btn_open_45 c2 c1.
Proof. intros _ _ _. apply is_btn_open_45_swap. Qed.

Lemma is_btn_open_45_symmetric_witness :
  is_btn_open_45 "9d" "8s" = is_btn_open_45 "8s" "9d".
Proof.
  apply (is_btn_open_45_symmetric "9d" "8s").
  - apply well_formed_bool. reflexivity.
  - apply well_formed_bool. reflexivity.
  - discriminate.
Defined.

(** C10: membership is a function of the two ranks and of the suited flag;
    two well-formed hands with the same multiset of ranks that are both
    suited or both offsuit get the same answer. *)
Theorem range_depends_on_ranks_and_suitedness (a1 a2 b1 b2 : string) :
  well_formed a1 -> well_formed a2 -> well_formed b1 -> well_formed b2 ->
  Permutation [card_rank a1; card_rank a2] [card_rank b1; card_rank b2] ->
  (card_suit a1 = card_suit a2 <-> card_suit b1 = card_suit b2) ->
  is_btn_open_45 a1 a2 = is_btn_open_45 b1 b2.
Proof.
  intros Ha1 Ha2 Hb1 Hb2 Hp Hs.
  apply well_formed_card_of in Ha1 as (r1 & s1 & -> & _ & _).
  apply well_formed_card_of in Ha2 as (r2 & s2 & -> & _ & _).
  apply well_formed_card_of in Hb1 as (q1 & t1 & -> & _ & _).
  apply well_formed_card_of in Hb2 as (q2 & t2 & -> & _ & _).
  assert (Es : Ascii.eqb s1 s2 = Ascii.eqb t1 t2).
  { unfold card_suit, card_of in Hs. simpl in Hs.
    destruct (Ascii.eqb_spec s1 s2) as [->|N1], (Ascii.eqb_spec t1 t2) as [->|N2];
      try reflexivity; exfalso.
    - apply N2. assert (Some t1 = Some t2) as [= ->] by now apply Hs. reflexivity.
    - apply N1. assert (Some s1 = Some s2) as [= ->] by now apply Hs. reflexivity. }
  apply Permutation_length_2 in Hp as [[E1 E2]|[E1 E2]];
    injection E1 as ->; injection E2 as ->.
  - now rewrite !is_btn_open_45_card_of, Es.
  - rewrite (is_btn_open_45_swap (card_of q2 s1)).
    now rewrite !is_btn_open_45_card_of, (Ascii.eqb_sym s2 s1), Es.
Qed.

Lemma range_depends_on_ranks_and_suitedness_witness :
  is_btn_open_45 "Ts" "5s" = is_btn_open_45 "5c" "Tc".
Proof.
  apply (range_depends_on_ranks_and_suitedness "Ts" "5s" "5c" "Tc").
  - apply well_formed_bool. reflexivity.
  - apply well_formed_bool. reflexivity.
  - apply well_formed_bool. reflexivity.
  - apply well_formed_bool. reflexivity.
  - apply perm_swap.
  - split; reflexivity.
Defined.

(** C5, as stated, does not hold: a malformed suit character does not make
    the evaluator fail.  Neither ['x'] nor ['y'] is a suit, yet
    [is_btn_open_45('Ax', 'Ky')] returns [True]. *)
Lemma malformed_suit_is_accepted :
  ~ (forall c1 c2 : string,
       String.length c1 = 2 -> String.length c2 = 2 ->
       rank_ok c1 && suit_ok c1 && rank_ok c2 && suit_ok c2 = false ->
       exists e, is_btn_open_45 c1 c2 = Raise e).
Proof.
  intros H.
  destruct (H "Ax" "Ky" eq_refl eq_refl eq_refl) as [e He].
  discriminate He.
Qed.

(** On two-character strings the outcome is decided by the rank characters
    alone. *)
Lemma is_btn_open_45_two_chars (c1 c2 : string) :
  String.length c1 = 2 -> String.length c2 = 2 ->
  (rank_ok c1 && rank_ok c2 = false ->
   is_btn_open_45 c1 c2 = Raise ValueError) /\
  (rank_ok c1 && rank_ok c2 = true ->
   exists b, is_btn_open_45 c1 c2 = Ok b).
Proof.
  intros L1 L2.
  destruct c1 as [|r1 [|s1 [|x1 t1]]]; try discriminate.
  destruct c2 as [|r2 [|s2 [|x2 t2]]]; try discriminate.
  change (String r1 (String s1 "")) with (card_of r1 s1).
  change (String r2 (String s2 "")) with (card_of r2 s2).
  rewrite is_btn_open_45_card_of.
  unfold rank_ok, card_rank, card_of; cbn [String.get].
  destruct (char_in r1 (list_ascii_of_string RANKS)) eqn:I1;
  destruct (char_in r2 (list_ascii_of_string RANKS)) eqn:I2;
    cbn [andb]; (split; [intros E | intros E]; try discriminate E).
  - (* both ranks valid: every path of the rules returns *)
    apply char_in_In in I1, I2.
    destruct (rank_value_Ok r1 I1) as [v1 E1], (rank_value_Ok r2 I2) as [v2 E2].
    rewrite E1, E2. cbn [res_bind].
    destruct (Ascii.eqb r1 r2); [eauto|].
    assert (S : forall hi lo, In hi (list_ascii_of_string RANKS) ->
                In lo (list_ascii_of_string RANKS) ->
                exists b, in_suited_rules hi lo = Ok b).
    { intros hi lo _ Hlo. unfold in_suited_rules.
      destruct (rank_value_Ok lo Hlo) as [l ->]. cbn [res_bind].
      repeat (match goal with |- context [if ?c then _ else _] => destruct c end;
              [eexists; reflexivity|]).
      eexists; reflexivity. }
    assert (O : forall hi lo, In hi (list_ascii_of_string RANKS) ->
                In lo (list_ascii_of_string RANKS) ->
                exists b, in_offsuit_rules hi lo = Ok b).
    { intros hi lo _ Hlo. unfold in_offsuit_rules.
      destruct (rank_value_Ok lo Hlo) as [l ->]. cbn [res_bind].
      repeat (match goal with |- context [if ?c then _ else _] => destruct c end;
              [eexists; reflexivity|]).
      eexists; reflexivity. }
    cbv zeta. destruct (v2 <? v1)%nat, (Ascii.eqb s1 s2); auto.
  - (* second rank invalid *)
    apply char_in_In in I1. destruct (rank_value_Ok r1 I1) as [v1 ->].
    rewrite rank_value_Raise; [reflexivity|].
    intros H. apply char_in_In in H. congruence.
  - (* first rank invalid *)
    rewrite rank_value_Raise; [reflexivity|].
    intros H. apply char_in_In in H. congruence.
  - rewrite rank_value_Raise; [reflexivity|].
    intros H. apply char_in_In in H. congruence.
Qed.

Lemma is_btn_open_45_well_formed (c1 c2 : string) :
  well_formed c1 -> well_formed c2 -> exists b, is_btn_open_45 c1 c2 = Ok b.
Proof.
  intros H1 H2.
  apply well_formed_checks in H1 as (L1 & R1 & _), H2 as (L2 & R2 & _).
  apply (is_btn_open_45_two_chars c1 c2 L1 L2). now rewrite R1, R2.
Qed.

(** C5, as the code has it: the evaluator checks rank characters only.  On
    two-character strings it raises [ValueError] exactly when one of the rank
    characters is not in [RANKS]; otherwise it returns a boolean, whatever
    the suit characters are (well-formed cards included). *)
Theorem is_btn_open_45_validates_ranks_only (c1 c2 : string) :
  String.length c1 = 2 -> String.length c2 = 2 ->
  (rank_ok c1 && rank_ok c2 = false ->
   is_btn_open_45 c1 c2 = Raise ValueError) /\
  (rank_ok c1 && rank_ok c2 = true ->
   exists b, is_btn_open_45 c1 c2 = Ok b).
Proof. apply is_btn_open_45_two_chars. Qed.

Lemma is_btn_open_45_validates_ranks_only_witness :
  is_btn_open_45 "1s" "Kd" = Raise ValueError /\
  exists b, is_btn_open_45 "A?" "Kd" = Ok b.
Proof.
  split.
  - apply (proj1 (is_btn_open_45_validates_ranks_only "1s" "Kd" eq_refl eq_refl)).
    reflexivity.
  - apply (proj2 (is_btn_open_45_validates_ranks_only "A?" "Kd" eq_refl eq_refl)).
    reflexivity.
Defined.

(** ** The monad *)

Section MonadFacts.
Context {R : Random}.

Lemma bind_Ret {A B : Type} (m : M A) (k : A -> M B) (w w' : world) (b : B) :
  bind m k w = Ret b w' ->
  exists a w1, m w = Ret a w1 /\ k a w1 = Ret b w'.
Proof. unfold bind. destruct (m w) as [a w1| |]; try discriminate. eauto. Qed.

Lemma lift_Ret {A : Type} (r : res A) (w w' : world) (a : A) :
  lift r w = Ret a w' -> r = Ok a /\ w' = w.
Proof. unfold lift. destruct r; intros [= <- <-] || discriminate. auto. Qed.

End MonadFacts.

(** Split a hypothesis [bind m k w = Ret _ _] into its two halves. *)
Tactic Notation "bind_inv" hyp(H) "as" ident(a) ident(w) ident(H1) :=
  apply bind_Ret in H as (a & w & H1 & H).

(** ** The concrete generator *)

Lemma extract_Permutation {A : Type} (j : nat) (l : list A) (x : A) (rest : list A) :
  extract j l = Some (x, rest) -> Permutation l (x :: rest).
Proof.
  revert j x rest. induction l as [|a l IH]; intros [|j] x rest; simpl;
    try discriminate.
  - intros [= <- <-]. reflexivity.
  - destruct (extract j l) as [[y r]|] eqn:E; [|discriminate].
    intros [= <- <-]. rewrite (IH _ _ _ E). apply perm_swap.
Qed.

Lemma draw_all_Permutation {A : Type} (n : nat) (l : list A) (g : Z) :
  Permutation l (fst (draw_all n l g)).
Proof.
  revert l g. induction n as [|n IH]; intros l g; simpl; [reflexivity|].
  destruct (extract _ l) as [[x rest]|] eqn:E; [|reflexivity].
  specialize (IH rest (lcg_next g)).
  destruct (draw_all n rest (lcg_next g)) as [tl g']. simpl in *.
  rewrite (extract_Permutation _ _ _ _ E). now constructor.
Qed.

Lemma lcg_shuffle_permutes : shuffle_permutes lcg_random.
Proof. intros A l g. apply draw_all_Permutation. Qed.

(** ** Dealer *)

Lemma fresh_deck_NoDup : NoDup fresh_deck.
Proof.
  replace fresh_deck with (nodup string_dec fresh_deck) by (vm_compute; reflexivity).
  apply NoDup_nodup.
Qed.

Section DealerFacts.
Context {R : Random}.
Hypothesis shuffle_ok : shuffle_permutes R.

(** The top of a shuffled deck: seven distinct well-formed cards. *)
Lemma shuffled_top (deck : list string) :
  Permutation fresh_deck deck ->
  exists c1 c2 rest,
    deck = c1 :: c2 :: rest /\
    length (slice deck 2 7) = 5 /\
    NoDup (c1 :: c2 :: slice deck 2 7) /\
    (forall c, In c (c1 :: c2 :: slice deck 2 7) -> well_formed c).
Proof.
  intros Hp.
  pose proof (Permutation_length Hp) as Hl. rewrite fresh_deck_length in Hl.
  destruct deck as [|c1 [|c2 rest]]; try discriminate.
  exists c1, c2, rest.
  change (slice (c1 :: c2 :: rest) 2 7) with (firstn 5 rest).
  assert (Hr : length rest = 50) by (simpl in Hl; lia).
  assert (Hn : NoDup (c1 :: c2 :: rest))
    by (eapply Permutation_NoDup; [exact Hp | apply fresh_deck_NoDup]).
  repeat split.
  - rewrite length_firstn. lia.
  - rewrite <- (firstn_skipn 5 rest) in Hn.
    change (NoDup ((c1 :: c2 :: firstn 5 rest) ++ skipn 5 rest)) in Hn.
    now apply NoDup_app_remove_r in Hn.
  - intros c Hc. unfold well_formed.
    apply (Permutation_in c (Permutation_sym Hp)).
    destruct Hc as [->|[->|Hc]]; [now left | now right; left |].
    right; right. rewrite <- (firstn_skipn 5 rest). apply in_or_app. now left.
Qed.

(** One call of [shuffle] changes the generator only. *)
Lemma shuffle_Ret (w : world) :
  exists deck g,
    shuffle fresh_deck w = Ret deck (mkWorld R g (stdout w) (environ w)) /\
    Permutation fresh_deck deck.
Proof.
  unfold shuffle. pose proof (shuffle_ok string fresh_deck (rng w)) as Hp.
  destruct (random_shuffle string fresh_deck (rng w)) as [deck g].
  exists deck, g. auto.
Qed.

Lemma deal_attempts_Ret (fuel : nat) (w w' : world)
      (hand : string * string) (board : list string) :
  deal_attempts fuel w = Ret (hand, board) w' ->
  length board = 5 /\
  NoDup (fst hand :: snd hand :: board) /\
  (forall c, In c (fst hand :: snd hand :: board) -> well_formed c) /\
  is_btn_open_45 (fst hand) (snd hand) = Ok true /\
  stdout w' = stdout w /\ environ w' = environ w.
Proof.
  revert w. induction fuel as [|fuel IH]; intros w; simpl; [discriminate|].
  destruct (shuffle_Ret w) as (deck & g & Hs & Hp).
  unfold bind at 1. rewrite Hs.
  destruct (shuffled_top deck Hp) as (c1 & c2 & rest & -> & Hlen & Hnd & Hwf).
  unfold bind, lift, list_item; simpl nth_error; cbv iota beta.
  destruct (is_btn_open_45 c1 c2) as [[|]|] eqn:Hin; try discriminate.
  - unfold ret. intros [= <- <- <-].
    exact (conj Hlen (conj Hnd (conj Hwf (conj Hin (conj eq_refl eq_refl))))).
  - intros H. apply IH in H. simpl in H. exact H.
Qed.

Lemma deal_attempts_no_Exn (fuel : nat) (w w' : world) (e : exn) :
  deal_attempts fuel w <> Exn e w'.
Proof.
  revert w. induction fuel as [|fuel IH]; intros w; simpl; [discriminate|].
  destruct (shuffle_Ret w) as (deck & g & Hs & Hp).
  unfold bind at 1. rewrite Hs.
  destruct (shuffled_top deck Hp) as (c1 & c2 & rest & -> & _ & _ & Hwf).
  unfold bind, lift, list_item; simpl nth_error; cbv iota beta.
  destruct (is_btn_open_45_well_formed c1 c2) as [b ->];
    [apply Hwf; now left | apply Hwf; right; now left |].
  destruct b; [discriminate | apply IH].
Qed.

(** Dealing reads and writes the generator only. *)
Lemma deal_attempts_frame (fuel : nat) (w : world) (out : list string) (e : env) :
  deal_attempts fuel (mkWorld R (rng w) out e) =
  reworld out e (deal_attempts fuel w).
Proof.
  revert w. induction fuel as [|fuel IH]; intros w; simpl; [reflexivity|].
  unfold bind, shuffle, lift; simpl.
  destruct (random_shuffle string fresh_deck (rng w)) as [deck g].
  destruct (list_item deck 0) as [c1|]; [|reflexivity].
  destruct (list_item deck 1) as [c2|]; [|reflexivity].
  destruct (is_btn_open_45 c1 c2) as [[|]|]; try reflexivity.
  apply (IH (mkWorld R g (stdout w) (environ w))).
Qed.

Lemma deal_frame (fuel : nat) (seed : option Z) (w : world)
      (out : list string) (e : env) :
  deal_btn_open_and_board fuel seed (mkWorld R (rng w) out e) =
  reworld out e (deal_btn_open_and_board fuel seed w).
Proof.
  unfold deal_btn_open_and_board, bind.
  destruct seed as [s|]; simpl.
  - apply (deal_attempts_frame fuel (mkWorld R (random_seed s) (stdout w) (environ w))).
  - apply deal_attempts_frame.
Qed.

Lemma deal_Ret (fuel : nat) (seed : option Z) (w w' : world)
      (hand : string * string) (board : list string) :
  deal_btn_open_and_board fuel seed w = Ret (hand, board) w' ->
  length board = 5 /\
  NoDup (fst hand :: snd hand :: board) /\
  (forall c, In c (fst hand :: snd hand :: board) -> well_formed c) /\
  is_btn_open_45 (fst hand) (snd hand) = Ok true /\
  stdout w' = stdout w /\ environ w' = environ w.
Proof.
  unfold deal_btn_open_and_board, bind.
  destruct seed as [s|]; simpl; intros H; apply deal_attempts_Ret in H; exact H.
Qed.

Lemma deal_no_Exn (fuel : nat) (seed : option Z) (w w' : world) (e : exn) :
  deal_btn_open_and_board fuel seed w <> Exn e w'.
Proof.
  unfold deal_btn_open_and_board, bind.
  destruct seed as [s|]; simpl; apply deal_attempts_no_Exn.
Qed.

(** A call that returns within [fuel] attempts returns the same with any
    larger bound. *)
Lemma deal_attempts_more_fuel (fuel extra : nat) (w w' : world)
      (r : (string * string) * list string) :
  deal_attempts fuel w = Ret r w' -> deal_attempts (fuel + extra) w = Ret r w'.
Proof.
  revert w. induction fuel as [|fuel IH]; intros w; simpl; [discriminate|].
  unfold bind. destruct (shuffle fresh_deck w) as [deck w1| |]; auto.
  destruct (lift (list_item deck 0) w1) as [c1 w2| |]; auto.
  destruct (lift (list_item deck 1) w2) as [c2 w3| |]; auto.
  destruct (lift (is_btn_open_45 c1 c2) w3) as [[|] w4| |]; auto.
Qed.

Lemma deal_more_fuel (fuel extra : nat) (seed : option Z) (w w' : world)
      (r : (string * string) * list string) :
  deal_btn_open_and_board fuel seed w = Ret r w' ->
  deal_btn_open_and_board (fuel + extra) seed w = Ret r w'.
Proof.
  unfold deal_btn_open_and_board, bind.
  destruct seed as [s|]; simpl; apply deal_attempts_more_fuel.
Qed.

(** The loop ends at the first accepted shuffle. *)
Lemma deal_attempts_returns (fuel k : nat) (w : world) :
  k < fuel -> accepts (after_shuffles k (rng w)) = true ->
  exists r w', deal_attempts fuel w = Ret r w'.
Proof.
  revert k w. induction fuel as [|fuel IH]; intros k w Hk Ha; [lia|].
  cbn [deal_attempts]. unfold bind at 1, shuffle.
  destruct (random_shuffle string fresh_deck (rng w)) as [deck g] eqn:Es.
  pose proof (shuffle_ok string fresh_deck (rng w)) as Hp. rewrite Es in Hp.
  destruct (shuffled_top deck Hp) as (c1 & c2 & rest & -> & _ & _ & Hwf).
  unfold bind, lift, list_item; simpl nth_error; cbv iota beta.
  destruct (is_btn_open_45_well_formed c1 c2) as [b Hb];
    [apply Hwf; now left | apply Hwf; right; now left |].
  rewrite Hb. destruct b; [unfold ret; eauto|].
  destruct k as [|k].
  - exfalso. unfold accepts in Ha. cbn [after_shuffles] in Ha.
    rewrite Es in Ha. cbn [fst] in Ha. rewrite Hb in Ha. discriminate.
  - apply (IH k); [lia|]. cbn [after_shuffles rng] in *.
    rewrite Es in Ha. exact Ha.
Qed.

Lemma deal_returns (fuel k : nat) (seed : option Z) (w : world) :
  k < fuel -> accepts (after_shuffles k (start_state seed w)) = true ->
  exists r w', deal_btn_open_and_board fuel seed w = Ret r w'.
Proof.
  intros Hk Ha. unfold deal_btn_open_and_board, bind.
  destruct seed as [s|]; simpl; eapply deal_attempts_returns; eauto.
Qed.

End DealerFacts.

(** C2: what [deal_btn_open_and_board] returns, seeded or not, is a hand of
    two cards and a board of five, the seven cards pairwise distinct and all
    from the 52-card deck, with the hand in range.  The call never raises,
    and it returns as soon as one shuffle puts a hand of the range on top. *)
Theorem deal_returns_valid_hand_and_board
    (R : Random) (fuel : nat) (seed : option Z) (w : world) :
  shuffle_permutes R ->
  (forall hand board w',
      deal_btn_open_and_board fuel seed w = Ret (hand, board) w' ->
      length board = 5 /\
      NoDup (fst hand :: snd hand :: board) /\
      (forall c, In c (fst hand :: snd hand :: board) -> In c fresh_deck) /\
      is_btn_open_45 (fst hand) (snd hand) = Ok true) /\
  (forall e w', deal_btn_open_and_board fuel seed w <> Exn e w') /\
  (forall k, k < fuel ->
      accepts (after_shuffles k (start_state seed w)) = true ->
      exists r w', deal_btn_open_and_board fuel seed w = Ret r w').
Proof.
  intros HR. split; [|split].
  - intros hand board w' H. apply (deal_Ret HR) in H. tauto.
  - intros e w'. apply (deal_no_Exn HR).
  - intros k Hk Ha. exact (deal_returns HR fuel k seed w Hk Ha).
Qed.

Lemma deal_returns_valid_hand_and_board_witness :
  let w := mkWorld lcg_random 0%Z [] headless in
  let board := ["Kc"; "Qh"; "Ks"; "3h"; "5s"] in
  returned (deal_btn_open_and_board 10 (Some 42%Z) w) =
    Some (("4d", "Qd"), board) /\
  length board = 5 /\
  NoDup ("4d" :: "Qd" :: board) /\
  (forall c, In c ("4d" :: "Qd" :: board) -> In c fresh_deck) /\
  is_btn_open_45 "4d" "Qd" = Ok true.
Proof.
  intros w board.
  assert (E : returned (deal_btn_open_and_board 10 (Some 42%Z) w) =
              Some (("4d", "Qd"), board)) by (vm_compute; reflexivity).
  split; [exact E|].
  destruct (deal_returns_valid_hand_and_board lcg_random 10 (Some 42%Z) w
              lcg_shuffle_permutes) as (Hv & _ & Hr).
  destruct (Hr 6) as ([hand b] & w' & Hd); [lia | vm_compute; reflexivity |].
  rewrite Hd in E. injection E as -> ->.
  exact (Hv _ _ _ Hd).
Defined.


(** ** Watcher threads *)

Lemma check_keypress_device (ev : nat) (st : watcher) (e : env) :
  let e' := snd (check_keypress ev st e) in
  clock e' = clock e /\ ticks e' = ticks e /\ sigint e' = sigint e /\
  has_fileno e' = has_fileno e /\ is_tty e' = is_tty e /\
  threads e' = threads e /\ excepthook e' = excepthook e /\
  sched e' = sched e.
Proof.
  destruct st as [|old|old| |x]; simpl.
  - destruct (has_fileno e) eqn:Ef; simpl; [|tauto].
    destruct (is_tty e) eqn:Et; simpl; rewrite ?Ef, ?Et; tauto.
  - destruct (nth ev (events e) false); simpl; [tauto|].
    destruct (keys e) as [|[ch|] rest]; simpl; try tauto.
    destruct (Ascii.eqb ch "003"); simpl; [tauto|].
    match goal with |- context [if ?c then _ else _] => destruct c end;
      simpl; tauto.
  - tauto.
  - tauto.
  - tauto.
Qed.

Lemma thread_step_device (i : nat) (e : env) :
  clock (thread_step i e) = clock e /\ ticks (thread_step i e) = ticks e /\
  sigint (thread_step i e) = sigint e /\
  has_fileno (thread_step i e) = has_fileno e /\
  is_tty (thread_step i e) = is_tty e.
Proof.
  unfold thread_step.
  destruct (nth_error (threads e) i) as [[st ev]|]; [|cbv iota; tauto].
  pose proof (check_keypress_device ev st e) as H. cbv zeta in H.
  destruct (check_keypress ev st e) as [st' e']. simpl in H.
  destruct st; try tauto; destruct st'; simpl; tauto.
Qed.

Lemma run_scheduled_device (e : env) :
  clock (run_scheduled e) = clock e /\ ticks (run_scheduled e) = ticks e /\
  sigint (run_scheduled e) = sigint e /\
  has_fileno (run_scheduled e) = has_fileno e /\
  is_tty (run_scheduled e) = is_tty e.
Proof.
  unfold run_scheduled. destruct (sched e) as [|now later]; [tauto|].
  change (clock e) with (clock (set_sched later e)).
  change (ticks e) with (ticks (set_sched later e)).
  change (sigint e) with (sigint (set_sched later e)).
  change (has_fileno e) with (has_fileno (set_sched later e)).
  change (is_tty e) with (is_tty (set_sched later e)).
  generalize (set_sched later e). clear e.
  induction now as [|i now IH]; intros e; simpl; [tauto|].
  destruct (IH (thread_step i e)) as (-> & -> & -> & -> & ->).
  apply thread_step_device.
Qed.

Lemma Forall_list_set {A : Type} (P : A -> Prop) (i : nat) (v : A) (l : list A) :
  Forall P l -> P v -> Forall P (list_set i v l).
Proof.
  intros Hl Hv. revert i. induction Hl as [|x l Hx Hl IH]; intros [|i]; simpl;
    constructor; auto.
Qed.

(** Without a file descriptor a watcher returns at once and touches
    nothing. *)
Lemma calm_thread_step (e0 e : env) (i : nat) :
  calm e0 e -> calm e0 (thread_step i e).
Proof.
  intros (Hf & Hi & Hc & Ht & Hk & Hx). unfold thread_step.
  destruct (nth_error (threads e) i) as [[st ev]|] eqn:E;
    [|repeat split; assumption].
  apply nth_error_In in E.
  unfold watchers_idle in Hi. rewrite Forall_forall in Hi.
  destruct (Hi _ E) as [Hst|Hst]; simpl in Hst; subst st.
  - unfold check_keypress. rewrite Hf. simpl.
    repeat split; try assumption.
    apply Forall_list_set; [apply Forall_forall; exact Hi | now right].
  - repeat split; try assumption. apply Forall_forall; exact Hi.
Qed.

Lemma calm_run_scheduled (e0 e : env) : calm e0 e -> calm e0 (run_scheduled e).
Proof.
  unfold run_scheduled. destruct (sched e) as [|now later]; [auto|].
  intros H. assert (H' : calm e0 (set_sched later e)) by exact H.
  revert H'. generalize (set_sched later e). clear H e.
  induction now as [|i now IH]; intros e H; simpl; [assumption|].
  apply IH, calm_thread_step, H.
Qed.

(** ** Waiting for a key *)

Section WaitFacts.
Context {R : Random}.

Lemma program_lines_app (a b : list string) :
  program_lines (a ++ b) = (program_lines a ++ program_lines b)%list.
Proof. apply filter_app. Qed.

Lemma prefix_CR (s : string) : String.prefix CR (CR ++ s) = true.
Proof.
  change (CR ++ s) with (String "013" s). unfold CR.
  cbn [String.prefix]. destruct (ascii_dec "013" "013") as [_|N]; [|congruence].
  now destruct s.
Qed.

Lemma program_lines_countdown (out : list string) (s : string) :
  program_lines (out ++ [(CR ++ s) ++ ""]) = program_lines out.
Proof.
  rewrite program_lines_app.
  change ((CR ++ s) ++ "") with (CR ++ (s ++ "")).
  unfold program_lines at 2. cbn [filter]. rewrite prefix_CR. apply app_nil_r.
Qed.

(** A wait that returns has written countdown text only and has left the
    generator alone. *)
Lemma countdown_Ret (fuel : nat) (timeout_seconds : Z) (start_time : Q)
      (key_pressed : nat) (w w' : world) (b : bool) :
  countdown fuel timeout_seconds start_time key_pressed w = Ret b w' ->
  rng w' = rng w /\ program_lines (stdout w') = program_lines (stdout w).
Proof.
  revert w. induction fuel as [|fuel IH]; intros w; simpl; [discriminate|].
  unfold bind, with_env, time_time, event_is_set, print_end, ret; simpl.
  destruct (Qltb _ _).
  - destruct (nth key_pressed _ false).
    + intros [= <- <-]. simpl. split; [reflexivity|].
      apply (program_lines_countdown (stdout w) (spaces 20 ++ CR)).
    + unfold time_sleep; simpl.
      destruct (sigint _) as [|[|] later]; simpl; try discriminate;
        intros H; apply IH in H; simpl in H; destruct H as [-> ->];
        (split; [reflexivity|]);
        apply (program_lines_countdown (stdout w) (TAB ++ TAB ++ fmt_2d _ ++ "s")).
  - intros [= <- <-]. simpl. split; [reflexivity|].
    apply (program_lines_countdown (stdout w) (spaces 20 ++ CR)).
Qed.

Lemma wait_Ret (fuel : nat) (timeout_seconds : Z) (w w' : world) (b : bool) :
  wait_for_key_with_timeout fuel timeout_seconds w = Ret b w' ->
  rng w' = rng w /\ program_lines (stdout w') = program_lines (stdout w).
Proof.
  unfold wait_for_key_with_timeout, bind, time_time, new_event, thread_start,
    with_env; simpl.
  intros H. apply countdown_Ret in H. exact H.
Qed.

Lemma Qltb_elapsed (t0 t1 : Q) : (t0 <= t1)%Q -> Qltb (t1 - t0) (inject_Z 0) = false.
Proof.
  intros H. unfold Qltb. change (inject_Z 0) with 0%Q.
  destruct (Qcompare_spec (t1 - t0) 0) as [_|Hlt|_]; try reflexivity.
  exfalso. lra.
Qed.

(** The state in which the countdown loop starts: the clock was read once,
    the event exists and the watcher thread was started. *)
Lemma wait_unfold (fuel : nat) (timeout_seconds : Z) (w : world) :
  let e := environ w in
  wait_for_key_with_timeout fuel timeout_seconds w =
  countdown fuel timeout_seconds (clock e (ticks e)) (length (events e))
    (mkWorld R (rng w) (stdout w)
       (set_threads (threads e ++ [(AtEntry, length (events e))])
          (set_events (events e ++ [false]) (set_ticks (S (ticks e)) e)))).
Proof. reflexivity. Qed.

Lemma countdown_expired (fuel : nat) (timeout_seconds : Z) (start_time : Q)
      (key_pressed : nat) (w : world) :
  let e1 := run_scheduled (environ w) in
  Qltb (clock e1 (ticks e1) - start_time) (inject_Z timeout_seconds) = false ->
  countdown (S fuel) timeout_seconds start_time key_pressed w =
  Ret false (mkWorld R (rng w) (stdout w ++ [CLEAR_COUNTDOWN ++ ""])
               (set_ticks (S (ticks e1)) e1)).
Proof.
  intros e1 H. cbn [countdown].
  unfold bind, with_env, time_time. cbn [rng stdout environ].
  fold e1. rewrite H. reflexivity.
Qed.

(** With a timeout of zero seconds and a clock that does not run backwards
    the countdown loop is not entered: the wait returns [False] having
    read the clock twice and written the blanking text only. *)
Lemma wait_zero_timeout (fuel : nat) (w : world) :
  clock_monotone (environ w) ->
  exists w',
    wait_for_key_with_timeout (S fuel) 0 w = Ret false w' /\
    rng w' = rng w /\
    stdout w' = (stdout w ++ [CLEAR_COUNTDOWN])%list /\
    clock (environ w') = clock (environ w) /\
    ticks (environ w') = 2 + ticks (environ w) /\
    (forall e0, calm e0 (environ w) -> calm e0 (environ w')).
Proof.
  intros Hm. rewrite wait_unfold. cbv zeta.
  set (e := environ w).
  set (e1 := set_threads _ (set_events _ (set_ticks _ e))).
  destruct (run_scheduled_device e1) as (Hc & Ht & _).
  rewrite countdown_expired.
  - eexists. split; [reflexivity|]. cbn [rng stdout environ].
    split; [reflexivity|]. split; [reflexivity|]. split; [|split].
    + cbn. exact Hc.
    + cbn. rewrite Ht. reflexivity.
    + intros e0 H0. cbn.
      assert (H1 : calm e0 (run_scheduled e1)).
      { apply calm_run_scheduled.
        destruct H0 as (Hf & Hi & Hk & Htt & Hkk & Hx).
        split; [exact Hf|]. split; [|now repeat split].
        unfold e1, watchers_idle. cbn [threads set_threads].
        apply Forall_app. split; [exact Hi|].
        constructor; [now left | constructor]. }
      exact H1.
  - cbn [environ]. rewrite Hc, Ht. apply Qltb_elapsed. apply Hm.
Qed.

End WaitFacts.

(** ** The session *)

Section SessionFacts.
Context {R : Random}.

Lemma wrote_refl (w : world) : wrote w w [].
Proof. split; [reflexivity | now rewrite app_nil_r]. Qed.

Lemma wrote_trans (w1 w2 w3 : world) (l1 l2 : list string) :
  wrote w1 w2 l1 -> wrote w2 w3 l2 -> wrote w1 w3 (l1 ++ l2)%list.
Proof.
  intros [Hr1 Ho1] [Hr2 Ho2]. split; [congruence|].
  now rewrite Ho2, Ho1, app_assoc.
Qed.

Lemma wrote_wait (fuel : nat) (timeout : Z) (w w' : world) (b : bool) :
  wait_for_key_with_timeout fuel timeout w = Ret b w' -> wrote w w' [].
Proof.
  intros H. apply wait_Ret in H as [Hr Ho]. split; [assumption|].
  now rewrite app_nil_r.
Qed.

Lemma wrote_print (s : string) (w w' : world) (u : unit) :
  String.prefix CR (s ++ NL) = false ->
  print s w = Ret u w' -> wrote w w' [s ++ NL].
Proof.
  intros Hs H. injection H as _ <-. split; [reflexivity|].
  cbn [stdout]. rewrite program_lines_app.
  unfold program_lines at 2. cbn [filter]. now rewrite Hs.
Qed.

Lemma wrote_lift {A : Type} (r : res A) (w w' : world) (a : A) :
  lift r w = Ret a w' -> r = Ok a /\ wrote w w' [].
Proof.
  intros H. apply lift_Ret in H as [-> ->]. split; [reflexivity | apply wrote_refl].
Qed.

Lemma reworld_Ret {A : Type} (out : list string) (e : env) (o : outcome A)
      (a : A) (w' : world) :
  reworld out e o = Ret a w' ->
  exists w0, o = Ret a w0 /\ rng w' = rng w0.
Proof.
  destruct o as [a0 w0| |]; simpl; try discriminate.
  intros [= <- <-]. eauto.
Qed.

Lemma world_eta (w : world) : w = mkWorld R (rng w) (stdout w) (environ w).
Proof. now destruct w. Qed.

Lemma deal_session_frame (fuel : nat) (todo : list Z) (seed : option Z)
      (w : world) (out : list string) (e : env) :
  deal_session fuel todo seed (mkWorld R (rng w) out e) =
  reworld out e (deal_session fuel todo seed w).
Proof.
  revert seed w. induction todo as [|i rest IH]; intros seed w; simpl;
    [reflexivity|].
  unfold bind at 1 3. rewrite deal_frame.
  destruct (deal_btn_open_and_board fuel seed w) as [d w1| |]; simpl;
    try reflexivity.
  unfold bind. rewrite (IH _ w1).
  now destruct (deal_session fuel rest _ w1).
Qed.

Lemma deal_session_length (fuel : nat) (todo : list Z) (seed : option Z)
      (w w' : world) (deals : list ((string * string) * list string)) :
  deal_session fuel todo seed w = Ret deals w' -> length deals = length todo.
Proof.
  revert seed w deals. induction todo as [|i rest IH]; intros seed w deals; simpl.
  - now intros [= <- <-].
  - intros H. bind_inv H as d w1 Hd. bind_inv H as ds w2 Hds.
    injection H as <- <-. simpl. f_equal. eauto.
Qed.

(** A session that returns has dealt what [deal_session] deals and has
    written, besides countdown text, the lines of these hands. *)
Lemma hands_loop_Ret (fuel : nat) (todo : list Z) (seed : option Z)
      (timeout : Z) (w w' : world) (u : unit) :
  hands_loop fuel todo seed timeout w = Ret u w' ->
  exists deals wd ls,
    deal_session fuel todo seed w = Ret deals wd /\
    rng w' = rng wd /\
    session_lines todo deals = Ok ls /\
    program_lines (stdout w') = (program_lines (stdout w) ++ ls)%list.
Proof.
  revert seed w. induction todo as [|i rest IH]; intros seed w; cbn [hands_loop].
  - intros H. injection H as _ <-. exists [], w, [].
    split; [reflexivity|]. split; [reflexivity|]. split; [reflexivity|].
    symmetry. apply app_nil_r.
  - intros H. bind_inv H as d w1 Hd. destruct d as [hand board].
    cbv beta iota zeta in H.
    bind_inv H as u1 w2 P1. apply wrote_print in P1; [|reflexivity].
    bind_inv H as h0 w3 F0. apply wrote_lift in F0 as [Eh0 W3].
    bind_inv H as h1 w4 F1. apply wrote_lift in F1 as [Eh1 W4].
    bind_inv H as u2 w5 P2. apply wrote_print in P2; [|reflexivity].
    bind_inv H as b1 w6 K1. apply wrote_wait in K1.
    bind_inv H as f w7 F2. apply wrote_lift in F2 as [Ef W7].
    bind_inv H as u3 w8 P3. apply wrote_print in P3; [|reflexivity].
    bind_inv H as b2 w9 K2. apply wrote_wait in K2.
    bind_inv H as turn w10 I3. apply wrote_lift in I3 as [Eturn W10].
    bind_inv H as t w11 F3. apply wrote_lift in F3 as [Et W11].
    bind_inv H as u4 w12 P4. apply wrote_print in P4; [|reflexivity].
    bind_inv H as b3 w13 K3. apply wrote_wait in K3.
    bind_inv H as river w14 I4. apply wrote_lift in I4 as [Eriver W14].
    bind_inv H as r w15 F4. apply wrote_lift in F4 as [Er W15].
    bind_inv H as u5 w16 P5. apply wrote_print in P5; [|reflexivity].
    bind_inv H as b4 w17 K4. apply wrote_wait in K4.
    apply IH in H as (deals & wd & ls & Hs & Hrng & Hls & Hout).
    pose proof (wrote_trans _ _ _ _ _ P1
               (wrote_trans _ _ _ _ _ W3
               (wrote_trans _ _ _ _ _ W4
               (wrote_trans _ _ _ _ _ P2
               (wrote_trans _ _ _ _ _ K1
               (wrote_trans _ _ _ _ _ W7
               (wrote_trans _ _ _ _ _ P3
               (wrote_trans _ _ _ _ _ K2
               (wrote_trans _ _ _ _ _ W10
               (wrote_trans _ _ _ _ _ W11
               (wrote_trans _ _ _ _ _ P4
               (wrote_trans _ _ _ _ _ K3
               (wrote_trans _ _ _ _ _ W14
               (wrote_trans _ _ _ _ _ W15
               (wrote_trans _ _ _ _ _ P5 K4))))))))))))))) as [Wr Wo].
    cbn [app] in Wo.
    rewrite (world_eta w17), Wr, deal_session_frame in Hs.
    apply reworld_Ret in Hs as (wd0 & Hs & Hrng0).
    exists ((hand, board) :: deals), wd0.
    cbn [session_lines]. unfold hand_lines.
    rewrite Eh0, Eh1, Ef, Eturn; cbn [res_bind].
    rewrite Et, Eriver; cbn [res_bind].
    rewrite Er; cbn [res_bind]. rewrite Hls; cbn [res_bind].
    eexists. split; [|split; [|split; [reflexivity|]]].
    + cbn [deal_session]. unfold bind. rewrite Hd, Hs. reflexivity.
    + congruence.
    + pose proof (deal_frame fuel seed w (stdout w) (environ w)) as Hf.
      rewrite <- world_eta, Hd in Hf. cbn [reworld] in Hf.
      injection Hf as Hw1.
      assert (Hso : stdout w1 = stdout w) by (rewrite Hw1; reflexivity).
      rewrite Hout, Wo, Hso, <- app_assoc. reflexivity.
Qed.

(** *** Sessions with a timeout of zero *)

Lemma settled_refl (w : world) : settled w w.
Proof. split; [reflexivity|]. split; auto. Qed.

Lemma settled_trans (w1 w2 w3 : world) :
  settled w1 w2 -> settled w2 w3 -> settled w1 w3.
Proof.
  intros (Hc1 & Hn1 & Hq1) (Hc2 & Hn2 & Hq2).
  split; [congruence|]. split; auto.
Qed.

Lemma step_print {A : Type} (s : string) (k : unit -> M A) (w : world) (a : A) :
  String.prefix CR (s ++ NL) = false ->
  (forall w1, steady w w1 -> exists w', k tt w1 = Ret a w' /\ settled w1 w') ->
  exists w', bind (print s) k w = Ret a w' /\ settled w w'.
Proof.
  intros Hs Hk.
  assert (St : steady w (mkWorld R (rng w) (stdout w ++ [s ++ NL]) (environ w))).
  { split; [reflexivity|]. split; [reflexivity|]. split; [|auto].
    intros Hn. apply Forall_app. split; [exact Hn|].
    constructor; [|constructor]. congruence. }
  destruct (Hk _ St) as (w' & Hw' & St').
  exists w'. split; [exact Hw' | eapply settled_trans; [apply St | exact St']].
Qed.

Lemma step_lift {A B : Type} (r : res B) (b : B) (k : B -> M A) (w : world) (a : A) :
  r = Ok b ->
  (exists w', k b w = Ret a w' /\ settled w w') ->
  exists w', bind (lift r) k w = Ret a w' /\ settled w w'.
Proof. intros -> H. exact H. Qed.

Lemma step_wait_zero {A : Type} (fuel : nat) (k : bool -> M A) (w : world) (a : A) :
  clock_monotone (environ w) ->
  (forall b w1, steady w w1 -> exists w', k b w1 = Ret a w' /\ settled w1 w') ->
  exists w',
    bind (wait_for_key_with_timeout (S fuel) 0) k w = Ret a w' /\ settled w w'.
Proof.
  intros Hm Hk.
  destruct (wait_zero_timeout fuel w Hm) as (w1 & Hw & Hr & Ho & Hc & _ & Hq).
  assert (St : steady w w1).
  { split; [exact Hr|]. split; [exact Hc|]. split; [|exact Hq].
    intros Hn. rewrite Ho. apply Forall_app. split; [exact Hn|].
    constructor; [|constructor]. reflexivity. }
  destruct (Hk false w1 St) as (w' & Hw' & St').
  exists w'. unfold bind. rewrite Hw.
  split; [exact Hw' | eapply settled_trans; [apply St | exact St']].
Qed.

Lemma steady_monotone (w w' : world) :
  steady w w' -> clock_monotone (environ w) -> clock_monotone (environ w').
Proof. intros (_ & Hc & _) Hm n. rewrite Hc. apply Hm. Qed.

Lemma steady_rng (w w' : world) : steady w w' -> rng w' = rng w.
Proof. now intros [H _]. Qed.

Lemma format_card_Ok (c : string) :
  well_formed c -> exists s, format_card c = Ok s.
Proof.
  intros H.
  assert (E : forallb (fun c => match format_card c with Ok _ => true | _ => false end)
                fresh_deck = true) by (vm_compute; reflexivity).
  rewrite forallb_forall in E. specialize (E c H).
  destruct (format_card c) as [s|]; [eauto | discriminate].
Qed.

Lemma format_cards_Ok (cards : list string) :
  (forall c, In c cards -> well_formed c) -> exists s, format_cards cards = Ok s.
Proof.
  intros H. unfold format_cards.
  assert (E : exists l, format_each cards = Ok l).
  { induction cards as [|c tl IH]; simpl; [eauto|].
    destruct (format_card_Ok c) as [s ->]; [apply H; now left|].
    destruct IH as [l ->]; [intros x Hx; apply H; now right|].
    simpl. eauto. }
  destruct E as [l ->]. simpl. eauto.
Qed.

Section ZeroTimeout.
Hypothesis shuffle_ok : shuffle_permutes R.

(** If every hand of the session can be dealt, the session with
    [--timeout 0] runs through all of them. *)
Lemma hands_loop_zero_timeout (fuel : nat) (todo : list Z) (seed : option Z)
      (w wd : world) (deals : list ((string * string) * list string)) :
  clock_monotone (environ w) ->
  deal_session fuel todo seed w = Ret deals wd ->
  exists w',
    hands_loop fuel todo seed 0 w = Ret tt w' /\ settled w w'.
Proof.
  revert seed w wd deals.
  induction todo as [|i rest IH]; intros seed w wd deals Hm.
  - intros _. exists w. split; [reflexivity | apply settled_refl].
  - cbn [deal_session hands_loop]. intros H.
    bind_inv H as d w1 Hd. bind_inv H as ds w2 Hs. clear H.
    destruct d as [hand board].
    destruct fuel as [|f]; [destruct seed; discriminate Hd|].
    destruct (deal_Ret shuffle_ok _ _ _ _ _ _ Hd) as (Hlen & _ & Hwf & _ & Hso & Hse).
    destruct (format_card_Ok (fst hand)) as [h0 Eh0]; [apply Hwf; now left|].
    destruct (format_card_Ok (snd hand)) as [h1 Eh1]; [apply Hwf; right; now left|].
    destruct board as [|b0 [|b1 [|b2 [|b3 [|b4 [|b5 tl]]]]]]; try discriminate Hlen.
    assert (Hb : forall c, In c [b0; b1; b2; b3; b4] -> well_formed c)
      by (intros c Hc; apply Hwf; right; right; exact Hc).
    destruct (format_cards_Ok [b0; b1; b2]) as [fl Efl];
      [intros c Hc; apply Hb; simpl in *; tauto|].
    destruct (format_card_Ok b3) as [t Et]; [apply Hb; simpl; tauto|].
    destruct (format_card_Ok b4) as [r Er]; [apply Hb; simpl; tauto|].
    assert (Hm1 : clock_monotone (environ w1)) by (rewrite Hse; exact Hm).
    assert (G : exists w',
      (print (NL ++ "Hand " ++ str_of_int i ++ ":") ;;
       h0 <- lift (format_card (fst hand)) ;;
       h1 <- lift (format_card (snd hand)) ;;
       print ("Preflop: " ++ h0 ++ " " ++ h1) ;;
       wait_for_key_with_timeout (S f) 0 ;;
       fl <- lift (format_cards (slice [b0; b1; b2; b3; b4] 0 3)) ;;
       print ("Flop:    " ++ fl) ;;
       wait_for_key_with_timeout (S f) 0 ;;
       turn <- lift (list_item [b0; b1; b2; b3; b4] 3) ;;
       t <- lift (format_card turn) ;;
       print ("Turn:    " ++ t) ;;
       wait_for_key_with_timeout (S f) 0 ;;
       river <- lift (list_item [b0; b1; b2; b3; b4] 4) ;;
       r <- lift (format_card river) ;;
       print ("River:   " ++ r) ;;
       wait_for_key_with_timeout (S f) 0 ;;
       hands_loop (S f) rest (option_map (fun s => (s + 1)%Z) seed) 0)%io w1
      = Ret tt w' /\ settled w1 w').
    { apply step_print; [reflexivity|]. intros wa Sa.
      apply (step_lift _ h0); [exact Eh0|].
      apply (step_lift _ h1); [exact Eh1|].
      apply step_print; [reflexivity|]. intros wb Sb.
      pose proof (steady_monotone _ _ Sa Hm1) as Ma.
      pose proof (steady_monotone _ _ Sb Ma) as Mb.
      apply step_wait_zero; [exact Mb|]. intros k1 wc Sc.
      apply (step_lift _ fl); [exact Efl|].
      apply step_print; [reflexivity|]. intros we Se.
      pose proof (steady_monotone _ _ Sc Mb) as Mc.
      pose proof (steady_monotone _ _ Se Mc) as Me.
      apply step_wait_zero; [exact Me|]. intros k2 wf Sf.
      apply (step_lift _ b3); [reflexivity|].
      apply (step_lift _ t); [exact Et|].
      apply step_print; [reflexivity|]. intros wg Sg.
      pose proof (steady_monotone _ _ Sf Me) as Mf.
      pose proof (steady_monotone _ _ Sg Mf) as Mg.
      apply step_wait_zero; [exact Mg|]. intros k3 wh Sh.
      apply (step_lift _ b4); [reflexivity|].
      apply (step_lift _ r); [exact Er|].
      apply step_print; [reflexivity|]. intros wi Si.
      pose proof (steady_monotone _ _ Sh Mg) as Mh.
      pose proof (steady_monotone _ _ Si Mh) as Mi.
      apply step_wait_zero; [exact Mi|]. intros k4 wj Sj.
      pose proof (steady_monotone _ _ Sj Mi) as Mj.
      assert (Hrj : rng wj = rng w1).
      { rewrite (steady_rng _ _ Sj), (steady_rng _ _ Si), (steady_rng _ _ Sh),
          (steady_rng _ _ Sg), (steady_rng _ _ Sf), (steady_rng _ _ Se),
          (steady_rng _ _ Sc), (steady_rng _ _ Sb). apply (steady_rng _ _ Sa). }
      pose proof (deal_session_frame (S f) rest
                    (option_map (fun s => (s + 1)%Z) seed) w1
                    (stdout wj) (environ wj)) as Hfr.
      rewrite Hs, <- Hrj, <- world_eta in Hfr. cbn [reworld] in Hfr.
      exact (IH _ _ _ _ Mj Hfr). }
    destruct G as (w' & Hw' & Hc & Hn & Hq).
    exists w'. split.
    + unfold bind at 1. rewrite Hd. exact Hw'.
    + unfold settled. rewrite <- Hso, <- Hse. auto.
Qed.

(** A generator under which every rejection loop ends within [fuel]
    shuffles deals every hand of a session. *)
Lemma deal_session_returns (fuel : nat) (todo : list Z) (seed : option Z)
      (w : world) :
  (forall g, exists k, k < fuel /\ accepts (after_shuffles k g) = true) ->
  exists deals wd, deal_session fuel todo seed w = Ret deals wd.
Proof.
  intros Hacc. revert seed w.
  induction todo as [|i rest IH]; intros seed w; cbn [deal_session].
  - unfold ret. eauto.
  - destruct (Hacc (start_state seed w)) as (k & Hk & Ha).
    destruct (deal_returns shuffle_ok fuel k seed w Hk Ha) as (d & w1 & Hd).
    destruct (IH (option_map (fun s => (s + 1)%Z) seed) w1) as (ds & wd & Hs).
    exists (d :: ds), wd. unfold bind. rewrite Hd, Hs. reflexivity.
Qed.

End ZeroTimeout.

Lemma main_Ret (fuel : nat) (hands : Z) (seed : option Z) (timeout : Z)
      (w w' : world) (u : unit) :
  main fuel hands seed timeout w = Ret u w' ->
  exists deals wd ls,
    deal_session fuel (py_range 1 (hands + 1)) seed w = Ret deals wd /\
    rng w' = rng wd /\
    session_lines (py_range 1 (hands + 1)) deals = Ok ls /\
    program_lines (stdout w') =
      (program_lines (stdout w) ++ ls ++ [DONE_LINE])%list.
Proof.
  unfold main. intros H. bind_inv H as u0 w1 HL.
  apply hands_loop_Ret in HL as (deals & wd & ls & Hs & Hr & Hl & Ho).
  apply wrote_print in H as [Pr Po]; [|reflexivity].
  exists deals, wd, ls. repeat split; try assumption; [congruence|].
  rewrite Po, Ho, <- app_assoc. reflexivity.
Qed.

(** After [random.seed(s)] the state before the call no longer matters. *)
Lemma deal_seeded_frame (fuel : nat) (s : Z) (w w0 : world) :
  deal_btn_open_and_board fuel (Some s) w0 =
  reworld (stdout w0) (environ w0) (deal_btn_open_and_board fuel (Some s) w).
Proof.
  unfold deal_btn_open_and_board, bind, seed_random.
  exact (deal_attempts_frame fuel
           (mkWorld R (random_seed s) (stdout w) (environ w))
           (stdout w0) (environ w0)).
Qed.

(** With a seed, hand number [k + 1] of a session is the deal of seed
    [s + k], from whatever state the generator was in. *)
Lemma deal_session_seeded (fuel : nat) (todo : list Z) (s : Z) (w wd : world)
      (deals : list ((string * string) * list string)) :
  deal_session fuel todo (Some s) w = Ret deals wd ->
  forall (k : nat) (w0 : world),
    (k < length todo)%nat ->
    returned (deal_btn_open_and_board fuel (Some (s + Z.of_nat k)%Z) w0) =
    nth_error deals k.
Proof.
  revert s w deals. induction todo as [|i rest IH]; intros s w deals; simpl.
  - intros _ k w0 Hk. lia.
  - intros H. bind_inv H as d w1 Hd. bind_inv H as ds w2 Hds.
    injection H as <- <-. intros [|k] w0 Hk.
    + rewrite Z.add_0_r, (deal_seeded_frame fuel s w w0), Hd. reflexivity.
    + simpl nth_error.
      replace (s + Z.of_nat (S k))%Z with ((s + 1) + Z.of_nat k)%Z by lia.
      apply (IH _ _ _ Hds). lia.
Qed.

End SessionFacts.

(** Two calls with the same seed return the same hand and board, from any
    two states and with any two bounds on the attempts. *)
Lemma deal_seed_deterministic {R : Random} (f1 f2 : nat) (s : Z)
      (w1 w2 w1' w2' : world) (r1 r2 : (string * string) * list string) :
  deal_btn_open_and_board f1 (Some s) w1 = Ret r1 w1' ->
  deal_btn_open_and_board f2 (Some s) w2 = Ret r2 w2' ->
  r1 = r2.
Proof.
  intros H1 H2.
  apply (deal_more_fuel f1 f2) in H1.
  apply (deal_more_fuel f2 f1) in H2.
  rewrite (Nat.add_comm f2 f1), (deal_seeded_frame _ s w1 w2), H1 in H2.
  cbn [reworld] in H2. congruence.
Qed.

Lemma py_range_length (a b : Z) : length (py_range a b) = Z.to_nat (b - a).
Proof. unfold py_range. now rewrite length_map, length_seq. Qed.

(** C4: dealing is a function of the seed, and a seeded session deals hand
    number [i] with seed [s + i - 1]: two runs with the same [--seed] write
    the same lines, whatever else differs between them, and the seeds of
    the successive hands are pairwise distinct. *)
Theorem seeded_session_reproducible
    (R : Random) (fuel : nat) (hands s timeout : Z) (w1 w2 w1' w2' : world) :
  main fuel hands (Some s) timeout w1 = Ret tt w1' ->
  main fuel hands (Some s) timeout w2 = Ret tt w2' ->
  (forall f1 f2 s0 wa wb wa' wb' ra rb,
      deal_btn_open_and_board f1 (Some s0) wa = Ret ra wa' ->
      deal_btn_open_and_board f2 (Some s0) wb = Ret rb wb' ->
      ra = rb) /\
  (exists deals ls,
      length deals = Z.to_nat hands /\
      (forall i w0, (1 <= i <= hands)%Z ->
         returned (deal_btn_open_and_board fuel (Some (s + i - 1)%Z) w0) =
         nth_error deals (Z.to_nat (i - 1))) /\
      session_lines (py_range 1 (hands + 1)) deals = Ok ls /\
      program_lines (stdout w1') =
        (program_lines (stdout w1) ++ ls ++ [DONE_LINE])%list /\
      program_lines (stdout w2') =
        (program_lines (stdout w2) ++ ls ++ [DONE_LINE])%list) /\
  (forall i j : Z, i <> j -> (s + i - 1 <> s + j - 1)%Z).
Proof.
  intros H1 H2. split; [|split].
  - intros f1 f2 s0 wa wb wa' wb' ra rb Ha Hb.
    exact (deal_seed_deterministic f1 f2 s0 wa wb wa' wb' ra rb Ha Hb).
  - apply main_Ret in H1 as (deals & wd & ls & Hs & _ & Hl & Ho).
    apply main_Ret in H2 as (deals2 & wd2 & ls2 & Hs2 & _ & Hl2 & Ho2).
    pose proof (deal_session_seeded _ _ _ _ _ _ Hs) as Hk.
    pose proof (deal_session_seeded _ _ _ _ _ _ Hs2) as Hk2.
    pose proof (deal_session_length _ _ _ _ _ _ Hs) as Hn.
    pose proof (deal_session_length _ _ _ _ _ _ Hs2) as Hn2.
    rewrite py_range_length in *.
    replace (hands + 1 - 1)%Z with hands in * by lia.
    assert (deals2 = deals) as ->.
    { apply nth_error_ext. intros k.
      destruct (Nat.lt_ge_cases k (Z.to_nat hands)) as [Hlt|Hge].
      - rewrite <- (Hk k w1 Hlt). symmetry. apply Hk2. exact Hlt.
      - transitivity (@None ((string * string) * list string));
          [|symmetry]; apply nth_error_None; lia. }
    assert (ls2 = ls) as -> by congruence.
    exists deals, ls. repeat split; try assumption.
    intros i w0 Hi.
    replace (s + i - 1)%Z with (s + Z.of_nat (Z.to_nat (i - 1)))%Z by lia.
    apply Hk. lia.
  - intros i j Hij. lia.
Qed.

(** ** The session goes on whatever the waits answer *)

Section Advance.
Context {R : Random}.
Hypothesis shuffle_ok : shuffle_permutes R.








End Advance.


Lemma headless_monotone : clock_monotone headless.
Proof.
  intros n. unfold headless, clock.
  apply Qmult_le_compat_r; [|discriminate].
  rewrite <- Zle_Qle. lia.
Qed.

(** C8: with [--timeout 0], no file descriptor behind standard input and a
    clock that does not run backwards, every wait returns [False] without
    entering the countdown loop, and a session whose hands can all be dealt
    runs to its end: exit status 0, the lines of every hand, then the closing
    line; no countdown is shown, no thread raises, the terminal is left
    alone. *)
Theorem zero_timeout_session_completes
    (R : Random) (fuel : nat) (hands : Z) (seed : option Z) (w wd : world)
    (deals : list ((string * string) * list string)) :
  shuffle_permutes R ->
  has_fileno (environ w) = false ->
  watchers_idle (environ w) ->
  clock_monotone (environ w) ->
  deal_session fuel (py_range 1 (hands + 1)) seed w = Ret deals wd ->
  (forall f w0,
      has_fileno (environ w0) = false ->
      clock_monotone (environ w0) ->
      exists w0',
        wait_for_key_with_timeout (S f) 0 w0 = Ret false w0' /\
        stdout w0' = (stdout w0 ++ [CLEAR_COUNTDOWN])%list /\
        ticks (environ w0') = 2 + ticks (environ w0)) /\
  (exists w' ls,
      script fuel hands seed 0 w = Some (0%Z, w') /\
      session_lines (py_range 1 (hands + 1)) deals = Ok ls /\
      program_lines (stdout w') =
        (program_lines (stdout w) ++ ls ++ [DONE_LINE])%list /\
      (countdown_never_shown (stdout w) -> countdown_never_shown (stdout w')) /\
      excepthook (environ w') = excepthook (environ w) /\
      tty (environ w') = tty (environ w)).
Proof.
  intros HR Hf Hi Hm Hs. split.
  - intros f w0 _ Hm0.
    destruct (wait_zero_timeout f w0 Hm0) as (w0' & Hw & _ & Ho & _ & Ht & _).
    exists w0'. auto.
  - destruct (hands_loop_zero_timeout HR _ _ _ _ _ _ Hm Hs)
      as (w1 & Hl & Hc & Hn & Hq).
    pose (w' := mkWorld R (rng w1) (stdout w1 ++ [DONE_LINE]) (environ w1)).
    assert (Hmain : main fuel hands seed 0 w = Ret tt w')
      by (unfold main, bind; rewrite Hl; reflexivity).
    destruct (main_Ret _ _ _ _ _ _ _ Hmain) as (deals' & wd' & ls & Hs' & _ & Hls & Ho).
    rewrite Hs in Hs'. injection Hs' as <- <-.
    assert (Hcalm : calm (environ w) (environ w1)).
    { apply Hq. repeat split; assumption. }
    destruct Hcalm as (_ & _ & _ & Ht & _ & Hx).
    exists w', ls. unfold script. rewrite Hmain.
    repeat split; try assumption.
    intros Hn0. unfold countdown_never_shown, w'. cbn [stdout].
    apply Forall_app. split; [exact (Hn Hn0)|].
    constructor; [|constructor]. discriminate.
Qed.

Lemma zero_timeout_session_completes_witness :
  let w := mkWorld lcg_random 7%Z [] headless in
  exists w',
    script 10 3 None 0 w = Some (0%Z, w') /\
    countdown_never_shown (stdout w') /\
    excepthook (environ w') = [] /\
    exists w0', wait_for_key_with_timeout 1 0 w = Ret false w0'.
Proof.
  intros w.
  assert (Rd : returned (deal_session 10 (py_range 1 (3 + 1)) None w) <> None)
    by (vm_compute; discriminate).
  destruct (deal_session 10 (py_range 1 (3 + 1)) None w) as [deals wd| |] eqn:E;
    try (exfalso; apply Rd; reflexivity).
  destruct (zero_timeout_session_completes lcg_random 10 3 None w wd deals)
    as (Hw & w' & ls & Hs & _ & _ & Hn & Hx & _).
  - exact lcg_shuffle_permutes.
  - reflexivity.
  - constructor.
  - exact headless_monotone.
  - exact E.
  - exists w'. split; [exact Hs|]. split; [apply Hn; constructor|].
    split; [exact Hx|].
    destruct (Hw 0 w eq_refl headless_monotone) as (w0' & H0 & _).
    exists w0'. exact H0.
Defined.

Lemma seeded_session_reproducible_witness :
  let w1 := mkWorld lcg_random 7%Z [] headless in
  let w2 := mkWorld lcg_random 99%Z [] (terminal [None; Some " "%char] [[0]; [0]; [0]]) in
  exists w1' w2',
    main 40 2 (Some 42%Z) 1 w1 = Ret tt w1' /\
    main 40 2 (Some 42%Z) 1 w2 = Ret tt w2' /\
    program_lines (stdout w1') = program_lines (stdout w2') /\
    returned (deal_btn_open_and_board 40 (Some 43%Z) w1) =
    returned (deal_btn_open_and_board 40 (Some 43%Z) w2).
Proof.
  intros w1 w2.
  assert (R1 : returned (main 40 2 (Some 42%Z) 1 w1) = Some tt)
    by (vm_compute; reflexivity).
  assert (R2 : returned (main 40 2 (Some 42%Z) 1 w2) = Some tt)
    by (vm_compute; reflexivity).
  destruct (main 40 2 (Some 42%Z) 1 w1) as [[] w1'| |] eqn:E1; try discriminate R1.
  destruct (main 40 2 (Some 42%Z) 1 w2) as [[] w2'| |] eqn:E2; try discriminate R2.
  destruct (seeded_session_reproducible lcg_random 40 2 42 1 w1 w2 w1' w2' E1 E2)
    as (_ & (deals & ls & _ & Hd & _ & Ho1 & Ho2) & _).
  exists w1', w2'. split; [reflexivity|]. split; [reflexivity|]. split.
  - rewrite Ho1, Ho2. reflexivity.
  - change 43%Z with (42 + 2 - 1)%Z.
    rewrite (Hd 2%Z w1), (Hd 2%Z w2); [reflexivity | lia | lia].
Defined.


(** ** Ctrl-C *)

Lemma not_In_existsb (x : string) (l : list string) :
  existsb (String.eqb x) l = false -> ~ In x l.
Proof.
  intros H Hin.
  assert (existsb (String.eqb x) l = true)
    by (apply existsb_exists; exists x; split; [assumption | apply String.eqb_refl]).
  congruence.
Qed.

Section KeysNeverInterrupt.
Context {R : Random}.
Hypothesis shuffle_ok : shuffle_permutes R.

Lemma never_raises_bind {A B : Type} (m : M A) (k : A -> M B)
      (P : A -> Prop) (Q : B -> Prop) :
  never_raises m P -> (forall a, P a -> never_raises (k a) Q) ->
  never_raises (bind m k) Q.
Proof.
  intros Hm Hk w Hw. unfold bind. specialize (Hm w Hw).
  destruct (m w) as [a w1| |]; [|contradiction|exact I].
  destruct Hm as [Hw1 Pa]. exact (Hk a Pa w1 Hw1).
Qed.

Lemma never_raises_print (s : string) : never_raises (print s) (fun _ => True).
Proof. intros w Hw. simpl. auto. Qed.

Lemma never_raises_lift {A : Type} (r : res A) (a : A) (P : A -> Prop) :
  r = Ok a -> P a -> never_raises (lift r) P.
Proof. intros -> Pa w Hw. simpl. auto. Qed.

Lemma never_raises_ret {A : Type} (a : A) (P : A -> Prop) :
  P a -> never_raises (ret a) P.
Proof. intros Pa w Hw. simpl. auto. Qed.

Lemma never_raises_countdown (fuel : nat) (timeout_seconds : Z)
      (start_time : Q) (key_pressed : nat) :
  never_raises (countdown fuel timeout_seconds start_time key_pressed)
               (fun _ => True).
Proof.
  induction fuel as [|fuel IH]; intros w Hw; simpl; [exact I|].
  unfold bind, with_env, time_time, event_is_set, print_end, ret, time_sleep.
  cbn [rng stdout environ].
  destruct (run_scheduled_device (environ w)) as (_ & _ & Hs & _).
  destruct (Qltb _ _); [|cbn; split; [congruence | exact I]].
  destruct (nth key_pressed _ false); [cbn; split; [congruence | exact I]|].
  cbn [environ sigint set_ticks]. rewrite Hs, Hw.
  apply IH. cbn. congruence.
Qed.

Lemma never_raises_wait (fuel : nat) (timeout_seconds : Z) :
  never_raises (wait_for_key_with_timeout fuel timeout_seconds) (fun _ => True).
Proof.
  intros w Hw. rewrite wait_unfold. apply never_raises_countdown. exact Hw.
Qed.

Lemma never_raises_deal (fuel : nat) (seed : option Z) :
  never_raises (deal_btn_open_and_board fuel seed)
    (fun d => length (snd d) = 5 /\
              forall c, In c (fst (fst d) :: snd (fst d) :: snd d) -> well_formed c).
Proof.
  intros w Hw.
  destruct (deal_btn_open_and_board fuel seed w) as [[hand board] w'|x w'|] eqn:E.
  - destruct (deal_Ret shuffle_ok _ _ _ _ _ _ E) as (Hl & _ & Hwf & _ & _ & He).
    rewrite He. auto.
  - exact (deal_no_Exn shuffle_ok _ _ _ _ _ E).
  - exact I.
Qed.

Lemma never_raises_hands_loop (fuel : nat) (todo : list Z) (seed : option Z)
      (timeout : Z) :
  never_raises (hands_loop fuel todo seed timeout) (fun _ => True).
Proof.
  revert seed. induction todo as [|i rest IH]; intros seed; cbn [hands_loop].
  - now apply never_raises_ret.
  - eapply never_raises_bind; [apply never_raises_deal|].
    intros [hand board] [Hlen Hwf]. cbn [fst snd] in Hlen, Hwf.
    destruct (format_card_Ok (fst hand)) as [h0 Eh0]; [apply Hwf; now left|].
    destruct (format_card_Ok (snd hand)) as [h1 Eh1]; [apply Hwf; right; now left|].
    destruct board as [|b0 [|b1 [|b2 [|b3 [|b4 [|b5 tl]]]]]]; try discriminate Hlen.
    assert (Hb : forall c, In c [b0; b1; b2; b3; b4] -> well_formed c)
      by (intros c Hc; apply Hwf; right; right; exact Hc).
    destruct (format_cards_Ok [b0; b1; b2]) as [fl Efl];
      [intros c Hc; apply Hb; simpl in *; tauto|].
    destruct (format_card_Ok b3) as [t Et]; [apply Hb; simpl; tauto|].
    destruct (format_card_Ok b4) as [r Er]; [apply Hb; simpl; tauto|].
    eapply never_raises_bind; [apply never_raises_print|]. intros _ _.
    eapply never_raises_bind; [exact (never_raises_lift _ h0 _ Eh0 I)|]. intros ? _.
    eapply never_raises_bind; [exact (never_raises_lift _ h1 _ Eh1 I)|]. intros ? _.
    eapply never_raises_bind; [apply never_raises_print|]. intros _ _.
    eapply never_raises_bind; [apply never_raises_wait|]. intros _ _.
    eapply never_raises_bind; [exact (never_raises_lift _ fl _ Efl I)|]. intros ? _.
    eapply never_raises_bind; [apply never_raises_print|]. intros _ _.
    eapply never_raises_bind; [apply never_raises_wait|]. intros _ _.
    eapply never_raises_bind;
      [exact (never_raises_lift _ b3 (fun c => c = b3) eq_refl eq_refl)|].
    intros ? ->.
    eapply never_raises_bind; [exact (never_raises_lift _ t _ Et I)|]. intros ? _.
    eapply never_raises_bind; [apply never_raises_print|]. intros _ _.
    eapply never_raises_bind; [apply never_raises_wait|]. intros _ _.
    eapply never_raises_bind;
      [exact (never_raises_lift _ b4 (fun c => c = b4) eq_refl eq_refl)|].
    intros ? ->.
    eapply never_raises_bind; [exact (never_raises_lift _ r _ Er I)|]. intros ? _.
    eapply never_raises_bind; [apply never_raises_print|]. intros _ _.
    eapply never_raises_bind; [apply never_raises_wait|]. intros _ _.
    apply IH.
Qed.

(** Whatever is typed at the terminal, Ctrl-C included, no exception
    reaches [main]: unless the operating system signals the process, the
    handler of the top level is never entered and a script that ends has
    run [main] to its normal end. *)
Lemma keys_never_interrupt_main (fuel : nat) (hands : Z) (seed : option Z)
      (timeout : Z) (w w' : world) (code : Z) :
  sigint (environ w) = [] ->
  script fuel hands seed timeout w = Some (code, w') ->
  main fuel hands seed timeout w = Ret tt w' /\ code = 0%Z.
Proof.
  intros Hw. unfold script.
  assert (H : never_raises (main fuel hands seed timeout) (fun _ => True)).
  { unfold main. eapply never_raises_bind; [apply never_raises_hands_loop|].
    intros _ _. apply never_raises_print. }
  specialize (H w Hw).
  destruct (main fuel hands seed timeout w) as [[] w1| |]; try contradiction.
  - intros [= <- <-]. auto.
  - discriminate.
Qed.

End KeysNeverInterrupt.

(** C6: a Ctrl-C during a wait should stop the whole session with the
    stop notice and exit status 0; the code does not do that.  On an
    interactive terminal the watcher thread
    has put the terminal in raw mode, so Ctrl-C arrives as the byte 3 on
    standard input.  [check_keypress] raises [KeyboardInterrupt] for it, but
    inside the watcher thread: the exception ends that thread and is
    reported by [threading.excepthook]; the main thread never sees it.  Here
    the user presses Ctrl-C during the first wait of a two-hand session:
    [main] returns normally after both hands, the closing line is printed
    and the stop notice is not. *)
Theorem ctrl_c_key_does_not_stop_session :
  let w := mkWorld lcg_random 7%Z [] (terminal [Some "003"%char] [[0]; [0]]) in
  exists w' deals ls,
    main 40 2 (Some 42%Z) 1 w = Ret tt w' /\
    script 40 2 (Some 42%Z) 1 w = Some (0%Z, w') /\
    keys (environ w') = [] /\
    excepthook (environ w') = [KeyboardInterrupt] /\
    length deals = 2 /\
    session_lines (py_range 1 (2 + 1)) deals = Ok ls /\
    program_lines (stdout w') = (ls ++ [DONE_LINE])%list /\
    ~ In STOPPED_LINE (stdout w').
Proof.
  intros w.
  assert (Obs : match main 40 2 (Some 42%Z) 1 w with
                | Ret _ w' =>
                    match keys (environ w'), excepthook (environ w') with
                    | [], [KeyboardInterrupt] =>
                        negb (existsb (String.eqb STOPPED_LINE) (stdout w'))
                    | _, _ => false
                    end
                | _ => false
                end = true) by (vm_compute; reflexivity).
  destruct (main 40 2 (Some 42%Z) 1 w) as [[] w'| |] eqn:E; try discriminate Obs.
  destruct (keys (environ w')) as [|? ?] eqn:Ek; [|discriminate Obs].
  destruct (excepthook (environ w')) as [|[] [|? ?]] eqn:Ex; try discriminate Obs.
  apply negb_true_iff in Obs.
  destruct (main_Ret _ _ _ _ _ _ _ E) as (deals & wd & ls & Hs & _ & Hls & Ho).
  apply deal_session_length in Hs.
  exists w', deals, ls. unfold script. rewrite E.
  repeat split; try assumption; try reflexivity.
  now apply not_In_existsb.
Qed.

(** An interrupt signal that the operating system delivers to the process
    (the terminal is not in raw mode, or the signal comes from elsewhere)
    does what the specification says: it is raised in the main thread
    during [time.sleep], leaves [main], and the top level prints the stop
    notice and exits with status 0. *)
Lemma os_interrupt_stops_session :
  let w := mkWorld lcg_random 7%Z [] (interrupted_after 2 headless) in
  exists w',
    script 40 2 (Some 42%Z) 1 w = Some (0%Z, w') /\
    last (stdout w') "" = STOPPED_LINE /\
    length (program_lines (stdout w')) = 3.
Proof.
  intros w.
  assert (Obs : match script 40 2 (Some 42%Z) 1 w with
                | Some (c, w') =>
                    (c =? 0)%Z && String.eqb (last (stdout w') "") STOPPED_LINE
                    && Nat.eqb (length (program_lines (stdout w'))) 3
                | None => false
                end = true) by (vm_compute; reflexivity).
  destruct (script 40 2 (Some 42%Z) 1 w) as [[c w']|]; [|discriminate Obs].
  apply andb_prop in Obs as [Obs H3]. apply andb_prop in Obs as [Hc Hl].
  apply Z.eqb_eq in Hc. apply String.eqb_eq in Hl. apply Nat.eqb_eq in H3.
  subst c. exists w'. auto.
Qed.


(* ================================================================== *)
(** * Further properties of the code *)

(** ** The deck and the ranks *)

Lemma str_find_get (s : string) (c : ascii) (n : nat) :
  str_find c s = Some n -> String.get n s = Some c /\ n < String.length s.
Proof.
  revert n. induction s as [|a s IH]; intros n; simpl; [discriminate|].
  destruct (Ascii.eqb_spec c a) as [->|Hc].
  - intros [= <-]. split; [reflexivity | lia].
  - destruct (str_find c s) as [m|]; [|discriminate].
    intros [= <-]. destruct (IH m eq_refl) as [Hg Hl]. split; [exact Hg | lia].
Qed.

Lemma get_lt (s : string) (n : nat) (c : ascii) :
  String.get n s = Some c -> n < String.length s.
Proof.
  revert n. induction s as [|a s IH]; intros [|n]; simpl; try discriminate.
  - lia.
  - intros H. apply IH in H. lia.
Qed.

(** X1: [fresh_deck()] is the whole deck: 52 cards, no card twice, exactly
    the strings made of a rank of [RANKS] followed by a suit of [SUITS], in
    the order of the comprehension (rank by rank, the four suits of a rank
    together). *)
Theorem fresh_deck_is_the_full_deck :
  length fresh_deck = 52 /\
  NoDup fresh_deck /\
  (forall c, In c fresh_deck <->
     exists r s, c = String r (String s "") /\
                 In r (list_ascii_of_string RANKS) /\
                 In s (list_ascii_of_string SUITS)) /\
  (forall i j r s,
     String.get i RANKS = Some r -> String.get j SUITS = Some s ->
     nth_error fresh_deck (4 * i + j) = Some (String r (String s ""))).
Proof.
  split; [reflexivity|]. split; [exact fresh_deck_NoDup|]. split.
  - exact well_formed_card_of.
  - intros i j r s Hi Hj.
    pose proof (get_lt _ _ _ Hi) as Li. pose proof (get_lt _ _ _ Hj) as Lj.
    change (String.length RANKS) with 13 in Li.
    change (String.length SUITS) with 4 in Lj.
    do 13 (destruct i as [|i]; [do 4 (destruct j as [|j];
      [injection Hi as <-; injection Hj as <-; reflexivity|]); lia|]).
    lia.
Qed.

(** X2: [rank_value] and indexing into [RANKS] are inverse to each other:
    [RANKS[rank_value(r)] == r] with an index below 13, and
    [rank_value(RANKS[v]) == v]; a character that is no rank raises
    [ValueError], and nothing else does. *)
Theorem rank_value_round_trip :
  (forall r v, rank_value r = Ok v -> v < 13 /\ String.get v RANKS = Some r) /\
  (forall v r, String.get v RANKS = Some r -> rank_value r = Ok v) /\
  (forall r, rank_value r = Raise ValueError <->
             ~ In r (list_ascii_of_string RANKS)) /\
  (forall r e, rank_value r = Raise e -> e = ValueError).
Proof.
  split; [|split; [|split]].
  - intros r v. unfold rank_value, str_index.
    destruct (str_find r RANKS) as [n|] eqn:E; [|discriminate].
    intros [= <-]. apply str_find_get in E as [Hg Hl]. split; [exact Hl | exact Hg].
  - intros v r Hg. pose proof (get_lt _ _ _ Hg) as Hl.
    change (String.length RANKS) with 13 in Hl.
    do 13 (destruct v as [|v]; [injection Hg as <-; reflexivity|]). lia.
  - intros r. split.
    + intros H Hin. destruct (rank_value_Ok r Hin) as [v Hv]. congruence.
    + apply rank_value_Raise.
  - exact rank_value_exn.
Qed.

(** ** The range evaluator on arbitrary strings *)

(** X3: when [normalize_cards] returns, [hi] and [lo] are the two rank
    characters with [rank_value(hi) >= rank_value(lo)], [pair] says that they
    are equal, [suited] that the suit characters are equal, and the result
    does not depend on the order of the two cards. *)
Theorem normalize_cards_orders_ranks
    (card1 card2 : string) (hi lo : ascii) (suited p : bool) :
  normalize_cards card1 card2 = Ok (hi, lo, suited, p) ->
  (exists vh vl, rank_value hi = Ok vh /\ rank_value lo = Ok vl /\ vl <= vh) /\
  (p = true <-> hi = lo) /\
  (suited = true <-> card_suit card1 = card_suit card2) /\
  ((card_rank card1 = Some hi /\ card_rank card2 = Some lo) \/
   (card_rank card1 = Some lo /\ card_rank card2 = Some hi)) /\
  normalize_cards card2 card1 = Ok (hi, lo, suited, p).
Proof.
  destruct card1 as [|r1 [|s1 t1]], card2 as [|r2 [|s2 t2]]; try discriminate.
  unfold normalize_cards, card_suit, card_rank. simpl.
  destruct (rank_value r1) as [v1|] eqn:E1; [|discriminate]. simpl.
  destruct (rank_value r2) as [v2|] eqn:E2; [|discriminate]. simpl.
  assert (Hs : Ascii.eqb s1 s2 = true <-> Some s1 = Some s2)
    by (rewrite Ascii.eqb_eq; split; congruence).
  rewrite (Ascii.eqb_sym s2 s1), (Ascii.eqb_sym r2 r1).
  destruct (Nat.ltb_spec v2 v1) as [Hlt|Hge]; intros [= <- <- <- <-].
  - split; [exists v1, v2; repeat split; auto; lia|].
    split; [apply Ascii.eqb_eq|]. split; [exact Hs|]. split; [now left|].
    destruct (Nat.ltb_spec v1 v2); [lia | reflexivity].
  - split; [exists v2, v1; repeat split; auto|].
    split; [rewrite Ascii.eqb_eq; split; congruence|].
    split; [exact Hs|]. split; [now right|].
    destruct (Nat.ltb_spec v1 v2) as [Hlt|Hge']; [reflexivity|].
    assert (v1 = v2) as -> by lia.
    rewrite (rank_value_inj _ _ _ E1 E2). reflexivity.
Qed.

Lemma normalize_cards_orders_ranks_witness :
  (exists vh vl, rank_value "K" = Ok vh /\ rank_value "7" = Ok vl /\ vl <= vh) /\
  (false = true <-> "K"%char = "7"%char) /\
  (false = true <-> card_suit "7h" = card_suit "Kd") /\
  ((card_rank "7h" = Some "K"%char /\ card_rank "Kd" = Some "7"%char) \/
   (card_rank "7h" = Some "7"%char /\ card_rank "Kd" = Some "K"%char)) /\
  normalize_cards "Kd" "7h" = Ok ("K"%char, "7"%char, false, false).
Proof.
  apply (normalize_cards_orders_ranks "7h" "Kd"). reflexivity.
Defined.

(** X4: [is_btn_open_45] reads the first two characters of each card and
    nothing else: a card shorter than two characters raises [IndexError]
    (before any rank is looked up), and whatever follows the second
    character is ignored. *)
Theorem is_btn_open_45_reads_two_characters (card1 card2 : string) :
  (String.length card1 < 2 \/ String.length card2 < 2 ->
   is_btn_open_45 card1 card2 = Raise IndexError) /\
  (2 <= String.length card1 -> 2 <= String.length card2 ->
   is_btn_open_45 card1 card2 =
   is_btn_open_45 (first_two card1) (first_two card2)).
Proof.
  split.
  - destruct card1 as [|r1 [|s1 t1]], card2 as [|r2 [|s2 t2]]; simpl;
      intros [H|H]; try reflexivity; lia.
  - destruct card1 as [|r1 [|s1 t1]], card2 as [|r2 [|s2 t2]]; simpl;
      intros H1 H2; try lia.
    reflexivity.
Qed.

Lemma rank_value_In (r : ascii) (v : nat) :
  rank_value r = Ok v -> In r (list_ascii_of_string RANKS).
Proof.
  unfold rank_value, str_index. intros H. apply str_find_In.
  destruct (str_find r RANKS) as [n|]; [eauto | discriminate].
Qed.



(** ** The shape of the range *)

Lemma ranks_check (P : ascii -> ascii -> bool) :
  forallb (fun r1 => forallb (P r1) (list_ascii_of_string RANKS))
          (list_ascii_of_string RANKS) = true ->
  forall r1 r2, In r1 (list_ascii_of_string RANKS) ->
                In r2 (list_ascii_of_string RANKS) -> P r1 r2 = true.
Proof.
  intros H r1 r2 H1 H2.
  rewrite forallb_forall in H. specialize (H r1 H1).
  rewrite forallb_forall in H. exact (H r2 H2).
Qed.

(** The answer for any suits is the answer for spades, or for a spade and a
    heart. *)
Lemma is_btn_open_45_canonical (r1 s1 r2 s2 : ascii) :
  is_btn_open_45 (card_of r1 s1) (card_of r2 s2) =
  is_btn_open_45 (card_of r1 "s") (card_of r2 (if Ascii.eqb s1 s2 then "s" else "h")).
Proof.
  rewrite !is_btn_open_45_card_of. now destruct (Ascii.eqb s1 s2).
Qed.

Lemma is_btn_open_45_true_ranks (r1 s1 r2 s2 : ascii) :
  is_btn_open_45 (card_of r1 s1) (card_of r2 s2) = Ok true ->
  In r1 (list_ascii_of_string RANKS) /\ In r2 (list_ascii_of_string RANKS).
Proof.
  rewrite is_btn_open_45_card_of.
  destruct (rank_value r1) as [v1|] eqn:E1; [|discriminate].
  destruct (rank_value r2) as [v2|] eqn:E2; [|discriminate].
  intros _. eauto using rank_value_In.
Qed.

(** X6: the suited range contains the offsuit range.  If a hand is in
    range, the hand of the same two ranks in one suit is in range too. *)
Theorem suited_range_contains_offsuit_range (r1 s1 r2 s2 s : ascii) :
  is_btn_open_45 (card_of r1 s1) (card_of r2 s2) = Ok true ->
  is_btn_open_45 (card_of r1 s) (card_of r2 s) = Ok true.
Proof.
  intros H. destruct (is_btn_open_45_true_ranks _ _ _ _ H) as [H1 H2].
  rewrite is_btn_open_45_canonical in H |- *. rewrite Ascii.eqb_refl.
  pose (P := fun a b : ascii =>
    implb (in_range_b (card_of a "s") (card_of b "h"))
          (in_range_b (card_of a "s") (card_of b "s"))).
  assert (HP : P r1 r2 = true)
    by (apply ranks_check; [vm_compute; reflexivity | assumption..]).
  unfold P, in_range_b in HP.
  destruct (Ascii.eqb s1 s2); [exact H|].
  rewrite H in HP. simpl in HP.
  destruct (is_btn_open_45 (card_of r1 "s") (card_of r2 "s")) as [[|]|];
    [reflexivity | discriminate | discriminate].
Qed.

Lemma suited_range_contains_offsuit_range_witness :
  is_btn_open_45 "9d" "8d" = Ok true.
Proof.
  apply (suited_range_contains_offsuit_range "9" "c" "8" "h" "d"). reflexivity.
Defined.

(** X7: the range is closed under raising the kicker.  If a hand is in
    range, so is the hand with the same high card and a higher kicker (still
    below the high card), suited if the first one was and offsuit if it was
    not. *)
Theorem higher_kicker_stays_in_range
    (r1 s1 r2 s2 r3 s3 : ascii) (v1 v2 v3 : nat) :
  rank_value r1 = Ok v1 -> rank_value r2 = Ok v2 -> rank_value r3 = Ok v3 ->
  v2 < v3 -> v3 < v1 ->
  Ascii.eqb s1 s2 = Ascii.eqb s1 s3 ->
  is_btn_open_45 (card_of r1 s1) (card_of r2 s2) = Ok true ->
  is_btn_open_45 (card_of r1 s1) (card_of r3 s3) = Ok true.
Proof.
  intros E1 E2 E3 L23 L31 Es H.
  rewrite is_btn_open_45_canonical in H |- *. rewrite <- Es.
  set (t := if Ascii.eqb s1 s2 then "s"%char else "h"%char) in *.
  pose (Q := fun (t : ascii) (a b c : ascii) =>
    match rank_value a, rank_value b, rank_value c with
    | Ok va, Ok vb, Ok vc =>
        implb (Nat.ltb vb vc && Nat.ltb vc va && in_range_b (card_of a "s") (card_of b t))
              (in_range_b (card_of a "s") (card_of c t))
    | _, _, _ => true
    end).
  assert (HQ : forall t, (t = "s" \/ t = "h")%char -> Q t r1 r2 r3 = true).
  { intros u Hu.
    assert (F : forallb (fun a => forallb (fun b => forallb (Q u a b)
                  (list_ascii_of_string RANKS)) (list_ascii_of_string RANKS))
                  (list_ascii_of_string RANKS) = true)
      by (destruct Hu as [->| ->]; vm_compute; reflexivity).
    rewrite forallb_forall in F. specialize (F r1 (rank_value_In _ _ E1)).
    rewrite forallb_forall in F. specialize (F r2 (rank_value_In _ _ E2)).
    rewrite forallb_forall in F. exact (F r3 (rank_value_In _ _ E3)). }
  specialize (HQ t). unfold Q, in_range_b in HQ. rewrite E1, E2, E3, H in HQ.
  apply Nat.ltb_lt in L23, L31. rewrite L23, L31 in HQ. simpl in HQ.
  assert (Ht : (t = "s" \/ t = "h")%char)
    by (unfold t; destruct (Ascii.eqb s1 s2); auto).
  specialize (HQ Ht).
  destruct (is_btn_open_45 (card_of r1 "s") (card_of r3 t)) as [[|]|];
    [reflexivity | discriminate | discriminate].
Qed.

Lemma higher_kicker_stays_in_range_witness :
  is_btn_open_45 "Jc" "9h" = Ok true.
Proof.
  apply (higher_kicker_stays_in_range "J" "c" "8" "d" "9" "h" 9 6 7);
    try reflexivity; lia.
Defined.

(** X8: the range holds 618 of the 1326 hands (46.6%, where the name of
    the function and its docstring say 45.25%): the 78 pairs, 228 suited
    and 312 offsuit hands. *)
Theorem range_holds_618_hands :
  let in_range := filter (fun h => in_range_b (fst h) (snd h)) all_hands in
  length all_hands = 1326 /\
  length in_range = 618 /\
  length (filter (fun h : string * string =>
            match card_rank (fst h), card_rank (snd h) with
            | Some a, Some b => Ascii.eqb a b
            | _, _ => false
            end) in_range) = 78 /\
  length (filter (fun h : string * string =>
            match card_rank (fst h), card_rank (snd h),
                  card_suit (fst h), card_suit (snd h) with
            | Some a, Some b, Some s, Some t =>
                negb (Ascii.eqb a b) && Ascii.eqb s t
            | _, _, _, _ => false
            end) in_range) = 228 /\
  length (filter (fun h : string * string =>
            match card_rank (fst h), card_rank (snd h),
                  card_suit (fst h), card_suit (snd h) with
            | Some a, Some b, Some s, Some t =>
                negb (Ascii.eqb a b) && negb (Ascii.eqb s t)
            | _, _, _, _ => false
            end) in_range) = 312.
Proof. vm_compute. repeat split; reflexivity. Qed.

(** ** Formatting cards *)

Lemma str_append_assoc (a b c : string) : ((a ++ b) ++ c = a ++ (b ++ c))%string.
Proof. induction a as [|x a IH]; simpl; [reflexivity | now rewrite IH]. Qed.

Lemma str_append_nil_r (a : string) : (a ++ "")%string = a.
Proof. induction a as [|x a IH]; simpl; [reflexivity | now rewrite IH]. Qed.

Lemma suit_cases (s : ascii) :
  In s (list_ascii_of_string SUITS) \/
  (Ascii.eqb s "s" = false /\ Ascii.eqb s "h" = false /\
   Ascii.eqb s "d" = false /\ Ascii.eqb s "c" = false).
Proof.
  destruct (Ascii.eqb_spec s "s") as [->|]; [left; simpl; tauto|].
  destruct (Ascii.eqb_spec s "h") as [->|]; [left; simpl; tauto|].
  destruct (Ascii.eqb_spec s "d") as [->|]; [left; simpl; tauto|].
  destruct (Ascii.eqb_spec s "c") as [->|]; [left; simpl; tauto|].
  right. auto.
Qed.

Lemma suit_cases_not_In (s : ascii) :
  ~ In s (list_ascii_of_string SUITS) ->
  Ascii.eqb s "s" = false /\ Ascii.eqb s "h" = false /\
  Ascii.eqb s "d" = false /\ Ascii.eqb s "c" = false.
Proof. intros H. destruct (suit_cases s); [contradiction | assumption]. Qed.

(** X9: [format_card] checks the suit and nothing else.  It returns exactly
    when the card has at least two characters and the second is a suit;
    the first character, rank or not, is copied between the colour code
    and the suit symbol, and what follows the second character is ignored.
    A shorter string raises [IndexError], an unknown suit [KeyError]. *)
Theorem format_card_checks_the_suit_only (card : string) :
  (String.length card < 2 -> format_card card = Raise IndexError) /\
  (forall r s t, card = String r (String s t) ->
     (In s (list_ascii_of_string SUITS) ->
      exists color symbol,
        dict_item SUIT_COLORS s = Ok color /\
        dict_item SUIT_SYMBOLS s = Ok symbol /\
        format_card card = Ok (color ++ String r symbol ++ RESET_COLOR)) /\
     (~ In s (list_ascii_of_string SUITS) -> format_card card = Raise KeyError)) /\
  ((exists out, format_card card = Ok out) <->
   (exists r s t, card = String r (String s t) /\
                  In s (list_ascii_of_string SUITS))).
Proof.
  assert (A : forall r s t, In s (list_ascii_of_string SUITS) ->
      exists color symbol,
        dict_item SUIT_COLORS s = Ok color /\
        dict_item SUIT_SYMBOLS s = Ok symbol /\
        format_card (String r (String s t)) =
          Ok (color ++ String r symbol ++ RESET_COLOR)).
  { intros r s t Hs. simpl in Hs.
    destruct Hs as [<-|[<-|[<-|[<-|[]]]]]; eexists; eexists;
      (split; [reflexivity|]); (split; reflexivity). }
  assert (B : forall r s t, ~ In s (list_ascii_of_string SUITS) ->
      format_card (String r (String s t)) = Raise KeyError).
  { intros r s t Hs. apply suit_cases_not_In in Hs as (E1 & E2 & E3 & E4).
    unfold format_card. simpl. now rewrite E1, E2, E3, E4. }
  split; [|split].
  - destruct card as [|r [|s t]]; simpl; intros H; try reflexivity; lia.
  - intros r s t ->. split; [apply A | apply B].
  - split.
    + intros [out Ho]. destruct card as [|r [|s t]]; try discriminate Ho.
      exists r, s, t. split; [reflexivity|].
      destruct (suit_cases s) as [Hs|Hs]; [exact Hs|].
      rewrite B in Ho; [discriminate|]. intros Hin. simpl in Hin.
      destruct Hs as (E1 & E2 & E3 & E4).
      destruct Hin as [<-|[<-|[<-|[<-|[]]]]]; discriminate.
    + intros (r & s & t & -> & Hs).
      destruct (A r s t Hs) as (color & symbol & _ & _ & Hf). eauto.
Qed.

(** X10: two cards that are displayed alike have the same rank and the same
    suit: [format_card] loses nothing of the two characters it reads. *)
Theorem format_card_is_injective (card1 card2 : string) (out : string) :
  format_card card1 = Ok out -> format_card card2 = Ok out ->
  first_two card1 = first_two card2.
Proof.
  intros H1 H2.
  destruct card1 as [|r1 [|s1 t1]]; try discriminate H1.
  destruct card2 as [|r2 [|s2 t2]]; try discriminate H2.
  change (first_two (String r1 (String s1 t1))) with (String r1 (String s1 "")).
  change (first_two (String r2 (String s2 t2))) with (String r2 (String s2 "")).
  destruct (suit_cases s1) as [Hs1|(E1 & E2 & E3 & E4)];
    [|unfold format_card in H1; simpl in H1;
      rewrite E1, E2, E3, E4 in H1; discriminate H1].
  destruct (suit_cases s2) as [Hs2|(E1 & E2 & E3 & E4)];
    [|unfold format_card in H2; simpl in H2;
      rewrite E1, E2, E3, E4 in H2; discriminate H2].
  simpl in Hs1, Hs2.
  destruct Hs1 as [<-|[<-|[<-|[<-|[]]]]];
  destruct Hs2 as [<-|[<-|[<-|[<-|[]]]]];
    cbv in H1, H2; congruence.
Qed.

Lemma format_card_is_injective_witness :
  first_two "Td" = first_two "Td?".
Proof.
  apply (format_card_is_injective "Td" "Td?"
           (ESC ++ "[94m" ++ "T" ++ "♦" ++ ESC ++ "[0m")); reflexivity.
Defined.

Lemma concat_app (sep : string) (l1 l2 : list string) :
  l1 <> [] -> l2 <> [] ->
  String.concat sep (l1 ++ l2) =
  (String.concat sep l1 ++ sep ++ String.concat sep l2)%string.
Proof.
  intros H1 H2. induction l1 as [|x [|y tl] IH]; [congruence| |].
  - destruct l2 as [|z l2]; [congruence | reflexivity].
  - change (String.concat sep ((x :: y :: tl) ++ l2))
      with (x ++ sep ++ String.concat sep ((y :: tl) ++ l2))%string.
    rewrite IH by discriminate.
    change (String.concat sep (x :: y :: tl))
      with (x ++ sep ++ String.concat sep (y :: tl))%string.
    now rewrite !str_append_assoc.
Qed.

Lemma format_each_app (l1 l2 : list string) :
  format_each (l1 ++ l2) =
  (a <- format_each l1 ;; b <- format_each l2 ;; Ok (a ++ b)%list)%res.
Proof.
  induction l1 as [|c l1 IH]; simpl.
  - now destruct (format_each l2).
  - destruct (format_card c) as [s|]; [|reflexivity]. simpl. rewrite IH.
    destruct (format_each l1) as [a|]; [|reflexivity]. simpl.
    now destruct (format_each l2).
Qed.

Lemma format_each_length (l : list string) (a : list string) :
  format_each l = Ok a -> length a = length l.
Proof.
  revert a. induction l as [|c l IH]; intros a; simpl.
  - now intros [= <-].
  - destruct (format_card c) as [s|]; [|discriminate]. simpl.
    destruct (format_each l) as [r|]; [|discriminate]. simpl.
    intros [= <-]. simpl. f_equal. now apply IH.
Qed.

(** X11: [format_cards] joins the formatted cards with single spaces: no
    card gives the empty string, one card gives [format_card] of it, and
    the result for two lists put end to end is the two results with one
    space between.  If some card cannot be formatted, the call fails with
    the exception of the first such card. *)
Theorem format_cards_joins_with_spaces :
  format_cards [] = Ok "" /\
  (forall c, format_cards [c] = format_card c) /\
  (forall l1 l2 s1 s2,
     l1 <> [] -> l2 <> [] ->
     format_cards l1 = Ok s1 -> format_cards l2 = Ok s2 ->
     format_cards (l1 ++ l2) = Ok (s1 ++ " " ++ s2)) /\
  (forall l1 c l2 e,
     (forall x, In x l1 -> exists s, format_card x = Ok s) ->
     format_card c = Raise e ->
     format_cards (l1 ++ c :: l2) = Raise e).
Proof.
  split; [reflexivity|]. split; [|split].
  - intros c. unfold format_cards. simpl. now destruct (format_card c).
  - intros l1 l2 s1 s2 N1 N2. unfold format_cards. rewrite format_each_app.
    destruct (format_each l1) as [a|] eqn:Ea; [|discriminate].
    destruct (format_each l2) as [b|] eqn:Eb; [|discriminate]. simpl.
    intros [= <-] [= <-]. f_equal. apply concat_app.
    + intros ->. apply format_each_length in Ea. destruct l1; [congruence | discriminate].
    + intros ->. apply format_each_length in Eb. destruct l2; [congruence | discriminate].
  - intros l1 c l2 e Hl Hc. unfold format_cards. rewrite format_each_app.
    assert (E : exists a, format_each l1 = Ok a).
    { induction l1 as [|x l1 IH]; simpl; [eauto|].
      destruct (Hl x (or_introl eq_refl)) as [s ->]. simpl.
      destruct IH as [a ->]; [intros y Hy; apply Hl; now right|]. simpl. eauto. }
    destruct E as [a ->]. simpl. now rewrite Hc.
Qed.

(** ** The dealer as rejection sampling *)

Section RejectionSampling.
Context {R : Random}.

Lemma deal_attempts_first_accepted (fuel : nat) (w w' : world)
      (hand : string * string) (board : list string) :
  deal_attempts fuel w = Ret (hand, board) w' ->
  exists k,
    k < fuel /\
    (forall j, j < k -> accepts (after_shuffles j (rng w)) = false) /\
    accepts (after_shuffles k (rng w)) = true /\
    (let deck := fst (random_shuffle string fresh_deck
                        (after_shuffles k (rng w))) in
     nth_error deck 0 = Some (fst hand) /\
     nth_error deck 1 = Some (snd hand) /\
     board = slice deck 2 7) /\
    rng w' = after_shuffles (S k) (rng w) /\
    stdout w' = stdout w /\ environ w' = environ w.
Proof.
  revert w. induction fuel as [|fuel IH]; intros w; [discriminate|].
  cbn [deal_attempts]. unfold bind at 1, shuffle.
  destruct (random_shuffle string fresh_deck (rng w)) as [deck g] eqn:Es.
  unfold bind, lift, list_item.
  destruct deck as [|c1 [|c2 rest]]; try discriminate. cbn [nth_error].
  destruct (is_btn_open_45 c1 c2) as [[|]|] eqn:Ein; try discriminate.
  - unfold ret. intros [= <- <- <-]. exists 0.
    split; [lia|]. split; [intros j Hj; lia|].
    cbn [after_shuffles]. unfold accepts. rewrite Es. cbn [fst snd].
    rewrite Ein. cbn. auto 10.
  - intros H. apply IH in H as (k & Hk & Hrej & Hacc & Hdeck & Hrng & Ho & He).
    cbn [rng stdout environ] in *. exists (S k).
    split; [lia|]. split; [|split; [|split; [|split]]].
    + intros [|j] Hj.
      * cbn [after_shuffles]. unfold accepts. rewrite Es. cbn [fst]. now rewrite Ein.
      * cbn [after_shuffles]. rewrite Es. cbn [snd]. apply Hrej. lia.
    + cbn [after_shuffles]. rewrite Es. exact Hacc.
    + cbn [after_shuffles]. rewrite Es. exact Hdeck.
    + rewrite Hrng. cbn [after_shuffles]. rewrite Es. reflexivity.
    + auto.
Qed.

End RejectionSampling.

(** X12: [deal_btn_open_and_board] is rejection sampling on whole shuffles.
    What it returns comes from the first shuffle of a fresh deck, counted
    from the state the generator starts in, whose two top cards are in
    range: the hand is these two cards, the board the five cards that
    follow, every earlier shuffle was rejected as a whole, and the generator
    is left where that shuffle left it.  Nothing else of the state
    changes. *)
Theorem deal_is_the_first_accepted_shuffle
    (R : Random) (fuel : nat) (seed : option Z) (w w' : world)
    (hand : string * string) (board : list string) :
  deal_btn_open_and_board fuel seed w = Ret (hand, board) w' ->
  exists k,
    k < fuel /\
    (forall j, j < k -> accepts (after_shuffles j (start_state seed w)) = false) /\
    accepts (after_shuffles k (start_state seed w)) = true /\
    (let deck := fst (random_shuffle string fresh_deck
                        (after_shuffles k (start_state seed w))) in
     nth_error deck 0 = Some (fst hand) /\
     nth_error deck 1 = Some (snd hand) /\
     board = slice deck 2 7) /\
    rng w' = after_shuffles (S k) (start_state seed w) /\
    stdout w' = stdout w /\ environ w' = environ w.
Proof.
  unfold deal_btn_open_and_board, bind. destruct seed as [s|]; simpl; intros H.
  - apply deal_attempts_first_accepted in H. exact H.
  - apply deal_attempts_first_accepted in H. exact H.
Qed.

Lemma deal_is_the_first_accepted_shuffle_witness :
  let w := mkWorld lcg_random 0%Z [] headless in
  exists w' k,
    deal_btn_open_and_board 10 (Some 42%Z) w =
      Ret (("4d", "Qd"), ["Kc"; "Qh"; "Ks"; "3h"; "5s"]) w' /\
    k < 10 /\
    (forall j, j < k ->
       accepts (after_shuffles j (start_state (Some 42%Z) w)) = false) /\
    accepts (after_shuffles k (start_state (Some 42%Z) w)) = true /\
    rng w' = after_shuffles (S k) (start_state (Some 42%Z) w).
Proof.
  intros w.
  assert (E : returned (deal_btn_open_and_board 10 (Some 42%Z) w) =
              Some (("4d", "Qd"), ["Kc"; "Qh"; "Ks"; "3h"; "5s"]))
    by (vm_compute; reflexivity).
  destruct (deal_btn_open_and_board 10 (Some 42%Z) w) as [r w'| |] eqn:D;
    try discriminate E.
  injection E as ->.
  destruct (deal_is_the_first_accepted_shuffle lcg_random 10 (Some 42%Z) w w'
              _ _ D) as (k & Hk & Hrej & Hacc & _ & Hrng & _).
  exists w', k. auto.
Defined.

(** ** The shape of a session *)

Lemma py_range_empty (a b : Z) : (b <= a)%Z -> py_range a b = [].
Proof.
  intros H. unfold py_range. replace (Z.to_nat (b - a)) with 0 by lia. reflexivity.
Qed.

(** X13: asked for no hand, or for a negative number of hands, [main] deals
    nothing, waits for nothing and prints the closing line only. *)
Theorem main_without_hands
    (R : Random) (fuel : nat) (hands : Z) (seed : option Z) (timeout : Z)
    (w : world) :
  (hands <= 0)%Z ->
  main fuel hands seed timeout w =
    Ret tt (mkWorld R (rng w) (stdout w ++ [DONE_LINE]) (environ w)) /\
  script fuel hands seed timeout w =
    Some (0%Z, mkWorld R (rng w) (stdout w ++ [DONE_LINE]) (environ w)).
Proof.
  intros H. unfold script, main. rewrite py_range_empty by lia.
  split; reflexivity.
Qed.

Lemma main_without_hands_witness :
  let w := mkWorld lcg_random 7%Z [] (terminal [Some " "%char] [[0]]) in
  main 0 (-3) (Some 42%Z) 600 w =
    Ret tt (mkWorld lcg_random 7%Z [DONE_LINE] (terminal [Some " "%char] [[0]])) /\
  script 0 (-3) (Some 42%Z) 600 w =
    Some (0%Z, mkWorld lcg_random 7%Z [DONE_LINE] (terminal [Some " "%char] [[0]])).
Proof.
  intros w. apply (main_without_hands lcg_random 0 (-3) (Some 42%Z) 600 w). lia.
Defined.

Lemma session_lines_blocks (todo : list Z)
      (deals : list ((string * string) * list string)) (ls : list string) :
  length deals = length todo ->
  session_lines todo deals = Ok ls ->
  exists blocks, Forall2 street_block todo blocks /\ ls = concat blocks.
Proof.
  revert deals ls. induction todo as [|i todo IH]; intros [|[hand board] deals] ls;
    cbn [session_lines length]; try discriminate.
  - intros _ [= <-]. exists []. split; [constructor | reflexivity].
  - intros Hl. injection Hl as Hl. unfold hand_lines.
    destruct (format_card (fst hand)) as [h0|]; [|discriminate]. cbn [res_bind].
    destruct (format_card (snd hand)) as [h1|]; [|discriminate]. cbn [res_bind].
    destruct (format_cards (slice board 0 3)) as [f|]; [|discriminate]. cbn [res_bind].
    destruct (list_item board 3) as [turn|]; [|discriminate]. cbn [res_bind].
    destruct (format_card turn) as [t|]; [|discriminate]. cbn [res_bind].
    destruct (list_item board 4) as [river|]; [|discriminate]. cbn [res_bind].
    destruct (format_card river) as [r|]; [|discriminate]. cbn [res_bind].
    destruct (session_lines todo deals) as [rest|] eqn:Er; [|discriminate].
    cbn [res_bind]. intros [= <-].
    destruct (IH deals rest Hl Er) as (blocks & Hb & ->).
    exists ([(NL ++ "Hand " ++ str_of_int i ++ ":") ++ NL;
             ("Preflop: " ++ h0 ++ " " ++ h1) ++ NL;
             ("Flop:    " ++ f) ++ NL;
             ("Turn:    " ++ t) ++ NL;
             ("River:   " ++ r) ++ NL]%string :: blocks).
    split; [|reflexivity].
    constructor; [|exact Hb]. exists (h0 ++ " " ++ h1)%string, f, t, r. reflexivity.
Qed.

Lemma Forall2_street_block_length (todo : list Z) (blocks : list (list string)) :
  Forall2 street_block todo blocks ->
  length (concat blocks) = 5 * length todo.
Proof.
  induction 1 as [|i b todo blocks (p & f & t & r & ->) _ IH]; [reflexivity|].
  cbn [concat length app]. rewrite IH. simpl. lia.
Qed.

(** X14: a session that runs to its end has printed, for each hand in turn,
    the header [Hand i:] with [i] counting from 1 and then the four lines
    [Preflop:], [Flop:], [Turn:], [River:] in this order, and after the last
    hand the closing line: five lines a hand and one more, whatever the
    waits did in between. *)
Theorem session_output_structure
    (R : Random) (fuel : nat) (hands : Z) (seed : option Z) (timeout : Z)
    (w w' : world) :
  main fuel hands seed timeout w = Ret tt w' ->
  exists blocks,
    Forall2 street_block (py_range 1 (hands + 1)) blocks /\
    program_lines (stdout w') =
      (program_lines (stdout w) ++ concat blocks ++ [DONE_LINE])%list /\
    length (concat blocks ++ [DONE_LINE]) = 5 * Z.to_nat hands + 1.
Proof.
  intros H. apply main_Ret in H as (deals & wd & ls & Hs & _ & Hl & Ho).
  apply deal_session_length in Hs.
  destruct (session_lines_blocks _ _ _ Hs Hl) as (blocks & Hb & ->).
  exists blocks. split; [exact Hb|]. split; [exact Ho|].
  rewrite length_app, (Forall2_street_block_length _ _ Hb), py_range_length.
  simpl. replace (hands + 1 - 1)%Z with hands by lia. lia.
Qed.

Lemma session_output_structure_witness :
  let w := mkWorld lcg_random 7%Z [] headless in
  exists w' blocks,
    main 40 2 (Some 42%Z) 1 w = Ret tt w' /\
    Forall2 street_block (py_range 1 (2 + 1)) blocks /\
    program_lines (stdout w') = (concat blocks ++ [DONE_LINE])%list /\
    length (concat blocks ++ [DONE_LINE]) = 11.
Proof.
  intros w.
  assert (R1 : returned (main 40 2 (Some 42%Z) 1 w) = Some tt)
    by (vm_compute; reflexivity).
  destruct (main 40 2 (Some 42%Z) 1 w) as [[] w'| |] eqn:E; try discriminate R1.
  destruct (session_output_structure lcg_random 40 2 (Some 42%Z) 1 w w' E)
    as (blocks & Hb & Ho & Hn).
  exists w', blocks. auto.
Defined.

(** ** What can leave [main] *)

Section InterruptOnly.
Context {R : Random}.
Hypothesis shuffle_ok : shuffle_permutes R.

Lemma interrupt_only_bind {A B : Type} (m : M A) (k : A -> M B)
      (P : A -> Prop) (Q : B -> Prop) :
  interrupt_only m P -> (forall a, P a -> interrupt_only (k a) Q) ->
  interrupt_only (bind m k) Q.
Proof.
  intros Hm Hk w. unfold bind. specialize (Hm w).
  destruct (m w) as [a w1| |]; [|exact Hm|exact I].
  exact (Hk a Hm w1).
Qed.

Lemma interrupt_only_print (s : string) : interrupt_only (print s) (fun _ => True).
Proof. intros w. exact I. Qed.

Lemma interrupt_only_lift {A : Type} (r : res A) (a : A) (P : A -> Prop) :
  r = Ok a -> P a -> interrupt_only (lift r) P.
Proof. intros -> Pa w. exact Pa. Qed.

Lemma interrupt_only_countdown (fuel : nat) (timeout_seconds : Z)
      (start_time : Q) (key_pressed : nat) :
  interrupt_only (countdown fuel timeout_seconds start_time key_pressed)
                 (fun _ => True).
Proof.
  induction fuel as [|fuel IH]; intros w; cbn [countdown]; [exact I|].
  unfold bind, with_env, time_time, event_is_set, print_end, ret, time_sleep.
  cbn [rng stdout environ].
  destruct (Qltb _ _); [|exact I].
  destruct (nth key_pressed _ false); [exact I|].
  destruct (sigint _) as [|[|] later]; [apply IH | reflexivity | apply IH].
Qed.

Lemma interrupt_only_wait (fuel : nat) (timeout_seconds : Z) :
  interrupt_only (wait_for_key_with_timeout fuel timeout_seconds) (fun _ => True).
Proof. intros w. rewrite wait_unfold. apply interrupt_only_countdown. Qed.

Lemma interrupt_only_deal (fuel : nat) (seed : option Z) :
  interrupt_only (deal_btn_open_and_board fuel seed)
    (fun d => length (snd d) = 5 /\
              forall c, In c (fst (fst d) :: snd (fst d) :: snd d) -> well_formed c).
Proof.
  intros w.
  destruct (deal_btn_open_and_board fuel seed w) as [[hand board] w'|x w'|] eqn:E.
  - destruct (deal_Ret shuffle_ok _ _ _ _ _ _ E) as (Hl & _ & Hwf & _). auto.
  - exfalso. exact (deal_no_Exn shuffle_ok _ _ _ _ _ E).
  - exact I.
Qed.

Lemma interrupt_only_hands_loop (fuel : nat) (todo : list Z) (seed : option Z)
      (timeout : Z) :
  interrupt_only (hands_loop fuel todo seed timeout) (fun _ => True).
Proof.
  revert seed. induction todo as [|i rest IH]; intros seed; cbn [hands_loop].
  - intros w. exact I.
  - eapply interrupt_only_bind; [apply interrupt_only_deal|].
    intros [hand board] [Hlen Hwf]. cbn [fst snd] in Hlen, Hwf.
    destruct (format_card_Ok (fst hand)) as [h0 Eh0]; [apply Hwf; now left|].
    destruct (format_card_Ok (snd hand)) as [h1 Eh1]; [apply Hwf; right; now left|].
    destruct board as [|b0 [|b1 [|b2 [|b3 [|b4 [|b5 tl]]]]]]; try discriminate Hlen.
    assert (Hb : forall c, In c [b0; b1; b2; b3; b4] -> well_formed c)
      by (intros c Hc; apply Hwf; right; right; exact Hc).
    destruct (format_cards_Ok [b0; b1; b2]) as [fl Efl];
      [intros c Hc; apply Hb; simpl in *; tauto|].
    destruct (format_card_Ok b3) as [t Et]; [apply Hb; simpl; tauto|].
    destruct (format_card_Ok b4) as [r Er]; [apply Hb; simpl; tauto|].
    eapply interrupt_only_bind; [apply interrupt_only_print|]. intros _ _.
    eapply interrupt_only_bind; [exact (interrupt_only_lift _ h0 _ Eh0 I)|]. intros ? _.
    eapply interrupt_only_bind; [exact (interrupt_only_lift _ h1 _ Eh1 I)|]. intros ? _.
    eapply interrupt_only_bind; [apply interrupt_only_print|]. intros _ _.
    eapply interrupt_only_bind; [apply interrupt_only_wait|]. intros _ _.
    eapply interrupt_only_bind; [exact (interrupt_only_lift _ fl _ Efl I)|]. intros ? _.
    eapply interrupt_only_bind; [apply interrupt_only_print|]. intros _ _.
    eapply interrupt_only_bind; [apply interrupt_only_wait|]. intros _ _.
    eapply interrupt_only_bind;
      [exact (interrupt_only_lift _ b3 (fun c => c = b3) eq_refl eq_refl)|].
    intros ? ->.
    eapply interrupt_only_bind; [exact (interrupt_only_lift _ t _ Et I)|]. intros ? _.
    eapply interrupt_only_bind; [apply interrupt_only_print|]. intros _ _.
    eapply interrupt_only_bind; [apply interrupt_only_wait|]. intros _ _.
    eapply interrupt_only_bind;
      [exact (interrupt_only_lift _ b4 (fun c => c = b4) eq_refl eq_refl)|].
    intros ? ->.
    eapply interrupt_only_bind; [exact (interrupt_only_lift _ r _ Er I)|]. intros ? _.
    eapply interrupt_only_bind; [apply interrupt_only_print|]. intros _ _.
    eapply interrupt_only_bind; [apply interrupt_only_wait|]. intros _ _.
    apply IH.
Qed.

Lemma interrupt_only_main (fuel : nat) (hands : Z) (seed : option Z)
      (timeout : Z) :
  interrupt_only (main fuel hands seed timeout) (fun _ => True).
Proof.
  unfold main. eapply interrupt_only_bind; [apply interrupt_only_hands_loop|].
  intros _ _. apply interrupt_only_print.
Qed.

End InterruptOnly.

(** ** What a wait does to its environment *)

Section CountdownInvariant.
Context {R : Random}.
Variable Inv : env -> Prop.
Hypothesis Inv_step : forall i e, Inv e -> Inv (thread_step i e).
Hypothesis Inv_sched : forall s e, Inv e -> Inv (set_sched s e).
Hypothesis Inv_ticks : forall n e, Inv e -> Inv (set_ticks n e).
Hypothesis Inv_sigint : forall s e, Inv e -> Inv (set_sigint s e).

Lemma run_scheduled_invariant (e : env) : Inv e -> Inv (run_scheduled e).
Proof.
  unfold run_scheduled. destruct (sched e) as [|now later]; [auto|].
  intros H. apply (Inv_sched later) in H.
  revert H. generalize (set_sched later e). clear e.
  induction now as [|i now IH]; intros e H; simpl; auto.
Qed.

(** What is kept by every step of a watcher and by the clock is kept by
    the countdown loop, however it ends; and the loop answers [True] only
    if it has seen the event set. *)
Lemma countdown_invariant (fuel : nat) (timeout_seconds : Z) (start_time : Q)
      (key_pressed : nat) (w : world) :
  Inv (environ w) ->
  match countdown fuel timeout_seconds start_time key_pressed w with
  | Ret b w' =>
      Inv (environ w') /\
      (b = true -> nth key_pressed (events (environ w')) false = true)
  | Exn _ w' => Inv (environ w')
  | OutOfFuel => True
  end.
Proof.
  revert w. induction fuel as [|fuel IH]; intros w Hw; cbn [countdown]; [exact Logic.I|].
  unfold bind, with_env, time_time, event_is_set, print_end, ret, time_sleep.
  cbn [rng stdout environ].
  pose proof (run_scheduled_invariant _ Hw) as H1.
  destruct (Qltb _ _).
  - destruct (nth key_pressed _ false) eqn:Ev.
    + cbn [environ]. split; [auto|]. intros _. exact Ev.
    + destruct (sigint _) as [|[|] later]; cbn [environ].
      * apply IH. cbn [environ]. auto.
      * auto.
      * apply IH. cbn [environ]. auto.
  - cbn [environ]. split; [auto|discriminate].
Qed.

End CountdownInvariant.


Lemma no_continue_key_thread_step (evs : list bool) (i : nat) (e : env) :
  no_continue_key (keys e) /\ events e = evs ->
  no_continue_key (keys (thread_step i e)) /\ events (thread_step i e) = evs.
Proof.
  intros [Hk He]. unfold thread_step.
  destruct (nth_error (threads e) i) as [[st ev]|]; [|auto].
  destruct st as [|old|old| |x]; [| |simpl; auto|auto|auto].
  - cbn [check_keypress].
    destruct (negb (has_fileno e)); [simpl; auto|].
    destruct (negb (is_tty e)); simpl; auto.
  - cbn [check_keypress].
    destruct (nth ev (events e) false); [simpl; auto|].
    destruct (keys e) as [|[ch|] rest] eqn:Ek.
    + simpl. rewrite Ek. auto.
    + apply Forall_inv in Hk as Hch. apply Forall_inv_tail in Hk.
      unfold continue_key in Hch.
      destruct (Ascii.eqb ch "003"); [simpl; auto|].
      cbv zeta. rewrite Hch. simpl. auto.
    + apply Forall_inv_tail in Hk. simpl. auto.
Qed.

Section WaitEnvironment.
Context {R : Random}.


End WaitEnvironment.



(** X17: keys other than SPACE and ENTER never end a wait.  If none of the
    keys still to come is SPACE, carriage return or line feed, a wait
    that returns returns [False], having set no event; so it lasted until
    the timeout. *)
Theorem other_keys_never_end_a_wait
    (R : Random) (fuel : nat) (timeout_seconds : Z) (w w' : world) (b : bool) :
  no_continue_key (keys (environ w)) ->
  wait_for_key_with_timeout fuel timeout_seconds w = Ret b w' ->
  b = false /\
  events (environ w') = (events (environ w) ++ [false])%list /\
  no_continue_key (keys (environ w')).
Proof.
  intros Hk H. rewrite wait_unfold in H.
  match type of H with
  | countdown _ _ _ _ ?w0 = _ =>
      pose proof (countdown_invariant
                    (fun e => no_continue_key (keys e) /\
                              events e = (events (environ w) ++ [false])%list)
                    (no_continue_key_thread_step _)
                    (fun _ _ H => H) (fun _ _ H => H) (fun _ _ H => H)
                    fuel timeout_seconds
                    (clock (environ w) (ticks (environ w)))
                    (length (events (environ w))) w0 (conj Hk eq_refl)) as Hinv
  end.
  rewrite H in Hinv. destruct Hinv as [[Hk' He'] Hb].
  split; [|auto].
  destruct b; [|reflexivity].
  specialize (Hb eq_refl). rewrite He', nth_middle in Hb. discriminate Hb.
Qed.

Lemma other_keys_never_end_a_wait_witness :
  let w := mkWorld lcg_random 7%Z []
             (terminal [Some "x"%char; None; Some "q"%char] [[0]; [0]; [0]; [0]]) in
  exists w', wait_for_key_with_timeout 40 1 w = Ret false w' /\
             events (environ w') = [false].
Proof.
  intros w.
  assert (Obs : returned (wait_for_key_with_timeout 40 1 w) <> None)
    by (vm_compute; discriminate).
  destruct (wait_for_key_with_timeout 40 1 w) as [b w'| |] eqn:E;
    try (exfalso; apply Obs; reflexivity).
  assert (Hk : no_continue_key (keys (environ w)))
    by (repeat constructor).
  destruct (other_keys_never_end_a_wait lcg_random 40 1 w w' b Hk E)
    as (-> & He & _).
  exists w'. split; [reflexivity|exact He].
Defined.

(** ** The terminal after a wait *)

Lemma lone_watcher_thread_step (m0 : tty_mode) (kp i : nat) (e : env) :
  lone_watcher m0 kp e -> lone_watcher m0 kp (thread_step i e).
Proof.
  intros (Hf & Ht & st & Hth & Hst). unfold thread_step. rewrite Hth.
  destruct i as [|i]; [|destruct i; exact (conj Hf (conj Ht (ex_intro _ st (conj Hth Hst))))].
  cbn [nth_error].
  destruct st as [|old|old| |x].
  - cbn [check_keypress]. rewrite Hf, Ht. cbn.
    split; [exact Hf|]. split; [exact Ht|].
    exists (Polling (tty e)). rewrite Hth. cbn.
    destruct Hst as [Hm Hev]. auto.
  - destruct Hst as (-> & Hraw & Hev).
    cbn [check_keypress]. rewrite Hev.
    destruct (keys e) as [|[ch|] rest] eqn:Ek.
    + cbn. rewrite Hth. cbn.
      split; [exact Hf|]. split; [exact Ht|].
      exists (Polling m0). auto.
    + cbv zeta. destruct (Ascii.eqb ch "003").
      * cbn. rewrite Hth. cbn.
        split; [exact Hf|]. split; [exact Ht|].
        exists (Died KeyboardInterrupt). auto.
      * destruct (char_in ch _).
        -- cbn. rewrite Hth. cbn.
           split; [exact Hf|]. split; [exact Ht|].
           exists (Returning m0). auto.
        -- cbn. rewrite Hth. cbn.
           split; [exact Hf|]. split; [exact Ht|].
           exists (Polling m0). auto.
    + cbn. rewrite Hth. cbn.
      split; [exact Hf|]. split; [exact Ht|].
      exists (Polling m0). auto.
  - destruct Hst as (-> & Hraw).
    cbn. rewrite Hth. cbn.
    split; [exact Hf|]. split; [exact Ht|].
    exists Returned. auto.
  - exact (conj Hf (conj Ht (ex_intro _ Returned (conj Hth Hst)))).
  - exact (conj Hf (conj Ht (ex_intro _ (Died x) (conj Hth Hst)))).
Qed.

(** X18: the terminal after a wait.  Started with no watcher around on an
    interactive terminal, a wait that returns leaves exactly one watcher
    behind, and the terminal is in raw mode exactly if that watcher is
    still inside its [try] block, with the mode to go back to saved in it.
    A wait that returned [True] does not mean that the terminal is back
    in that mode: the watcher has set the event, but its [finally] clause
    may still be to run.  A watcher found in its loop means that the wait
    timed out, and the terminal stays in raw mode for as long as that
    watcher lives.  A watcher that died read Ctrl-C. *)
Theorem terminal_mode_after_wait
    (R : Random) (fuel : nat) (timeout_seconds : Z) (w w' : world) (b : bool) :
  threads (environ w) = [] ->
  has_fileno (environ w) = true ->
  is_tty (environ w) = true ->
  wait_for_key_with_timeout fuel timeout_seconds w = Ret b w' ->
  exists st,
    threads (environ w') = [(st, length (events (environ w)))] /\
    (b = true -> st = Returning (tty (environ w)) \/ st = Returned) /\
    tty (environ w') = match st with
                       | Polling _ | Returning _ => Raw
                       | _ => tty (environ w)
                       end /\
    (forall old, st = Polling old -> old = tty (environ w) /\ b = false) /\
    (forall old, st = Returning old -> old = tty (environ w)) /\
    (forall x, st = Died x -> x = KeyboardInterrupt).
Proof.
  intros Hth Hf Ht H. rewrite wait_unfold in H. rewrite Hth in H.
  match type of H with
  | countdown _ _ _ _ ?w0 = _ =>
      pose proof (countdown_invariant
                    (lone_watcher (tty (environ w)) (length (events (environ w))))
                    (fun i e => lone_watcher_thread_step _ _ i e)
                    (fun _ _ H => H) (fun _ _ H => H) (fun _ _ H => H)
                    fuel timeout_seconds
                    (clock (environ w) (ticks (environ w)))
                    (length (events (environ w))) w0) as Hinv
  end.
  rewrite H in Hinv.
  destruct Hinv as [(_ & _ & st & Hth' & Hst) Hb].
  { split; [exact Hf|]. split; [exact Ht|]. exists AtEntry.
    cbn. split; [reflexivity|]. split; [reflexivity|]. apply nth_middle. }
  exists st. split; [exact Hth'|].
  assert (Hset : b = true ->
                 nth (length (events (environ w))) (events (environ w')) false
                 = false -> False).
  { intros Hbt Hev. rewrite (Hb Hbt) in Hev. discriminate Hev. }
  destruct st as [|old|old| |x].
  - destruct Hst as [Hm Hev].
    split; [|split; [|split; [|split]]].
    + intros Hbt. destruct (Hset Hbt Hev).
    + exact Hm.
    + discriminate.
    + discriminate.
    + discriminate.
  - destruct Hst as (-> & Hm & Hev).
    split; [|split; [|split; [|split]]].
    + intros Hbt. destruct (Hset Hbt Hev).
    + exact Hm.
    + intros ? [= <-]. split; [reflexivity|].
      destruct b; [destruct (Hset eq_refl Hev)|reflexivity].
    + discriminate.
    + discriminate.
  - destruct Hst as (-> & Hm).
    split; [|split; [|split; [|split]]].
    + intros _. left. reflexivity.
    + exact Hm.
    + discriminate.
    + now intros ? [= <-].
    + discriminate.
  - split; [|split; [|split; [|split]]].
    + intros _. right. reflexivity.
    + exact Hst.
    + discriminate.
    + discriminate.
    + discriminate.
  - destruct Hst as (-> & Hm & Hev).
    split; [|split; [|split; [|split]]].
    + intros Hbt. destruct (Hset Hbt Hev).
    + exact Hm.
    + discriminate.
    + discriminate.
    + now intros ? [= <-].
Qed.

Lemma terminal_mode_after_wait_witness :
  let w := mkWorld lcg_random 7%Z []
             (terminal [None; Some " "%char] [[0]; [0]; [0]]) in
  exists w', wait_for_key_with_timeout 40 5 w = Ret true w' /\
             threads (environ w') = [(Returning Cooked, 0)] /\
             tty (environ w') = Raw.
Proof.
  intros w.
  assert (Obs : match wait_for_key_with_timeout 40 5 w with
                | Ret true w1 =>
                    match threads (environ w1) with
                    | [(Returning Cooked, 0)] => true
                    | _ => false
                    end
                | _ => false
                end = true) by (vm_compute; reflexivity).
  destruct (wait_for_key_with_timeout 40 5 w) as [b w'| |] eqn:E;
    try discriminate Obs.
  destruct b; [|discriminate Obs].
  destruct (terminal_mode_after_wait lcg_random 40 5 w w' true
              eq_refl eq_refl eq_refl E) as (st & Hth & _ & Htty & _).
  exists w'. split; [reflexivity|].
  rewrite Hth in Obs |- *.
  destruct st as [|?|[|]| |x]; try discriminate Obs.
  split; [reflexivity|exact Htty].
Defined.

(** ** The environment over a whole session *)

Lemma list_set_length {A : Type} (i : nat) (v : A) (l : list A) :
  length (list_set i v l) = length l.
Proof.
  revert i. induction l as [|x l IH]; intros [|i]; simpl; auto.
Qed.

Lemma counts_thread_step (a b i : nat) (e : env) :
  length (threads e) = a /\ length (events e) = b ->
  length (threads (thread_step i e)) = a /\
  length (events (thread_step i e)) = b.
Proof.
  intros [Ha Hb]. unfold thread_step.
  destruct (nth_error (threads e) i) as [[st ev]|]; [|auto].
  destruct st as [|old|old| |x];
    [| |simpl; rewrite list_set_length; auto|auto|auto].
  - cbn [check_keypress].
    destruct (negb (has_fileno e)); [simpl; rewrite list_set_length; auto|].
    destruct (negb (is_tty e)); simpl; rewrite list_set_length; auto.
  - cbn [check_keypress].
    destruct (nth ev (events e) false); [simpl; rewrite list_set_length; auto|].
    destruct (keys e) as [|[ch|] rest] eqn:Ek.
    + simpl. rewrite list_set_length. auto.
    + cbv zeta. destruct (Ascii.eqb ch "003");
        [simpl; rewrite list_set_length; auto|].
      destruct (char_in ch _); simpl; rewrite ?list_set_length; auto.
    + simpl. rewrite list_set_length. auto.
Qed.

Section SessionEnvironment.
Context {R : Random}.

Lemma print_environ (s : string) (w w' : world) (u : unit) :
  print s w = Ret u w' -> environ w' = environ w.
Proof. intros H. injection H as _ <-. reflexivity. Qed.

Lemma deal_environ (fuel : nat) (seed : option Z) (w w' : world)
      (d : (string * string) * list string) :
  deal_btn_open_and_board fuel seed w = Ret d w' -> environ w' = environ w.
Proof.
  intros Hd.
  pose proof (deal_frame fuel seed w (stdout w) (environ w)) as Hf.
  rewrite <- world_eta, Hd in Hf. cbn [reworld] in Hf.
  injection Hf as Hw. rewrite Hw. reflexivity.
Qed.

(** Each wait starts one watcher and creates one event, and neither is
    ever given up. *)
Lemma wait_counts (fuel : nat) (timeout_seconds : Z) (w w' : world) (b : bool) :
  wait_for_key_with_timeout fuel timeout_seconds w = Ret b w' ->
  length (threads (environ w')) = S (length (threads (environ w))) /\
  length (events (environ w')) = S (length (events (environ w))).
Proof.
  intros H. rewrite wait_unfold in H.
  match type of H with
  | countdown _ _ ?s ?k ?w0 = _ =>
      pose proof (countdown_invariant
                    (fun e => length (threads e)
                              = S (length (threads (environ w))) /\
                              length (events e)
                              = S (length (events (environ w))))
                    (fun i e => counts_thread_step _ _ i e)
                    (fun _ _ H => H) (fun _ _ H => H) (fun _ _ H => H)
                    fuel timeout_seconds s k w0) as Hinv
  end.
  rewrite H in Hinv. apply Hinv. cbn.
  rewrite !length_app. cbn. split; lia.
Qed.

(** A wait during which nobody presses SPACE or ENTER ends by the
    timeout, its event unset. *)
Lemma wait_unattended (fuel : nat) (timeout_seconds : Z) (w w' : world)
      (b : bool) :
  no_continue_key (keys (environ w)) ->
  wait_for_key_with_timeout fuel timeout_seconds w = Ret b w' ->
  b = false /\
  events (environ w') = (events (environ w) ++ [false])%list /\
  no_continue_key (keys (environ w')).
Proof.
  intros Hk H. rewrite wait_unfold in H.
  match type of H with
  | countdown _ _ ?s ?k ?w0 = _ =>
      pose proof (countdown_invariant
                    (fun e1 => no_continue_key (keys e1) /\
                               events e1 = (events (environ w) ++ [false])%list)
                    (no_continue_key_thread_step _)
                    (fun _ _ H => H) (fun _ _ H => H) (fun _ _ H => H)
                    fuel timeout_seconds s k w0 (conj Hk eq_refl)) as Hinv
  end.
  rewrite H in Hinv. destruct Hinv as [[Hk' He'] Hb].
  split; [|auto].
  destruct b; [|reflexivity].
  specialize (Hb eq_refl). rewrite He', nth_middle in Hb. discriminate Hb.
Qed.

Section Waits.
Variable J : nat -> env -> Prop.
Hypothesis J_wait :
  forall n fuel timeout w b w',
    J n (environ w) ->
    wait_for_key_with_timeout fuel timeout w = Ret b w' ->
    J (S n) (environ w').

(** What every wait carries one step further, a series of [todo] hands
    carries four steps per hand: nothing else in the loop touches the
    environment. *)
Lemma hands_loop_environment (fuel : nat) (todo : list Z) (seed : option Z)
      (timeout : Z) (w w' : world) (u : unit) (n : nat) :
  hands_loop fuel todo seed timeout w = Ret u w' ->
  J n (environ w) ->
  J (4 * length todo + n) (environ w').
Proof.
  revert seed w n. induction todo as [|i rest IH]; intros seed w n;
    cbn [hands_loop].
  - intros H Hn. injection H as _ <-. exact Hn.
  - intros H Hn. bind_inv H as d w1 Hd. destruct d as [hand board].
    cbv beta iota zeta in H.
    apply deal_environ in Hd.
    bind_inv H as u1 w2 P1. apply print_environ in P1.
    bind_inv H as h0 w3 F0. apply lift_Ret in F0 as [_ ->].
    bind_inv H as h1 w4 F1. apply lift_Ret in F1 as [_ ->].
    bind_inv H as u2 w5 P2. apply print_environ in P2.
    bind_inv H as b1 w6 K1.
    bind_inv H as f w7 F2. apply lift_Ret in F2 as [_ ->].
    bind_inv H as u3 w8 P3. apply print_environ in P3.
    bind_inv H as b2 w9 K2.
    bind_inv H as turn w10 I3. apply lift_Ret in I3 as [_ ->].
    bind_inv H as t w11 F3. apply lift_Ret in F3 as [_ ->].
    bind_inv H as u4 w12 P4. apply print_environ in P4.
    bind_inv H as b3 w13 K3.
    bind_inv H as river w14 I4. apply lift_Ret in I4 as [_ ->].
    bind_inv H as r w15 F4. apply lift_Ret in F4 as [_ ->].
    bind_inv H as u5 w16 P5. apply print_environ in P5.
    bind_inv H as b4 w17 K4.
    rewrite <- Hd, <- P1, <- P2 in Hn.
    apply (J_wait _ _ _ _ _ _ Hn) in K1. rewrite <- P3 in K1.
    apply (J_wait _ _ _ _ _ _ K1) in K2. rewrite <- P4 in K2.
    apply (J_wait _ _ _ _ _ _ K2) in K3. rewrite <- P5 in K3.
    apply (J_wait _ _ _ _ _ _ K3) in K4.
    apply (IH _ _ _ H) in K4.
    replace (4 * length (i :: rest) + n) with (4 * length rest + S (S (S (S n))))
      by (cbn [length]; lia).
    exact K4.
Qed.

Lemma main_environment (fuel : nat) (hands : Z) (seed : option Z)
      (timeout : Z) (w w' : world) (u : unit) (n : nat) :
  main fuel hands seed timeout w = Ret u w' ->
  J n (environ w) ->
  J (4 * Z.to_nat hands + n) (environ w').
Proof.
  unfold main. intros H Hn. bind_inv H as u0 w1 HL.
  apply print_environ in H. rewrite H.
  apply (hands_loop_environment _ _ _ _ _ _ _ _ HL) in Hn.
  rewrite py_range_length in Hn.
  replace (hands + 1 - 1)%Z with hands in Hn by lia. exact Hn.
Qed.

End Waits.
End SessionEnvironment.

(** X19: a session that completes has started four watcher threads and
    created four events per hand, one for each street, on top of those
    that were there; none is joined or reused. *)
Theorem session_starts_four_watchers_per_hand
    (R : Random) (fuel : nat) (hands : Z) (seed : option Z) (timeout : Z)
    (w w' : world) :
  main fuel hands seed timeout w = Ret tt w' ->
  length (threads (environ w')) =
    length (threads (environ w)) + 4 * Z.to_nat hands /\
  length (events (environ w')) =
    length (events (environ w)) + 4 * Z.to_nat hands.
Proof.
  intros H.
  pose proof (main_environment
                (fun n e => length (threads e) = length (threads (environ w)) + n /\
                            length (events e) = length (events (environ w)) + n))
    as Hm.
  specialize (Hm ltac:(intros n f t w0 b w0' [H1 H2] Hw;
                       apply wait_counts in Hw as [-> ->]; split; lia)
                 fuel hands seed timeout w w' tt 0 H ltac:(split; lia)).
  rewrite Nat.add_0_r in Hm. exact Hm.
Qed.

Lemma session_starts_four_watchers_per_hand_witness :
  let w := mkWorld lcg_random 7%Z [] headless in
  exists w', main 10 3 None 0 w = Ret tt w' /\
             length (threads (environ w')) = 12.
Proof.
  intros w.
  assert (Obs : returned (main 10 3 None 0 w) = Some tt)
    by (vm_compute; reflexivity).
  destruct (main 10 3 None 0 w) as [[] w'| |] eqn:E; try discriminate Obs.
  exists w'. split; [reflexivity|].
  destruct (session_starts_four_watchers_per_hand lcg_random 10 3 None 0 w w' E)
    as [Ht _].
  exact Ht.
Defined.

(** X20: in a session nobody attends every wait ends by the timeout.  If
    none of the keys to come is SPACE or ENTER, a session that completes
    has created [4 * hands] events and set none of them, whatever else
    was typed and however the watchers were scheduled; and the keys left
    are still none of these. *)
Theorem unattended_session_sets_no_event
    (R : Random) (fuel : nat) (hands : Z) (seed : option Z) (timeout : Z)
    (w w' : world) :
  no_continue_key (keys (environ w)) ->
  main fuel hands seed timeout w = Ret tt w' ->
  events (environ w') =
    (events (environ w) ++ repeat false (4 * Z.to_nat hands))%list /\
  no_continue_key (keys (environ w')).
Proof.
  intros Hk H.
  pose proof (main_environment
                (fun n e => events e = (events (environ w) ++ repeat false n)%list /\
                            no_continue_key (keys e)))
    as Hm.
  specialize (Hm ltac:(intros n f t w0 b w0' [H1 H2] Hw;
                       apply (wait_unattended _ _ _ _ _ H2) in Hw
                         as (_ & He & Hk');
                       split; [|exact Hk'];
                       rewrite He, H1, <- app_assoc;
                       f_equal; symmetry; apply (repeat_cons n false))
                 fuel hands seed timeout w w' tt 0 H
                 ltac:(split; [cbn; symmetry; apply app_nil_r|exact Hk])).
  rewrite Nat.add_0_r in Hm. exact Hm.
Qed.

Lemma unattended_session_sets_no_event_witness :
  let w := mkWorld lcg_random 7%Z []
             (terminal [Some "x"%char; None; Some "q"%char] [[0]; [0]; [0]; [0]]) in
  exists w', main 40 1 (Some 42%Z) 1 w = Ret tt w' /\
             events (environ w') = [false; false; false; false].
Proof.
  intros w.
  assert (Obs : returned (main 40 1 (Some 42%Z) 1 w) = Some tt)
    by (vm_compute; reflexivity).
  destruct (main 40 1 (Some 42%Z) 1 w) as [[] w'| |] eqn:E; try discriminate Obs.
  exists w'. split; [reflexivity|].
  assert (Hk : no_continue_key (keys (environ w))) by (repeat constructor).
  destruct (unattended_session_sets_no_event lcg_random 40 1 (Some 42%Z) 1 w w'
              Hk E) as [He _].
  exact He.
Defined.

(** ** How the script ends, and in what state *)

Section Keeps.
Context {R : Random}.
Variable Inv : env -> Prop.
Hypothesis Inv_step : forall i e, Inv e -> Inv (thread_step i e).
Hypothesis Inv_sched : forall s e, Inv e -> Inv (set_sched s e).
Hypothesis Inv_ticks : forall n e, Inv e -> Inv (set_ticks n e).
Hypothesis Inv_sigint : forall s e, Inv e -> Inv (set_sigint s e).
Hypothesis Inv_start :
  forall e, Inv e ->
    Inv (set_threads (threads e ++ [(AtEntry, length (events e))])
           (set_events (events e ++ [false]) e)).

Lemma keeps_bind {A B : Type} (m : M A) (k : A -> M B) :
  keeps Inv m -> (forall a, keeps Inv (k a)) -> keeps Inv (bind m k).
Proof.
  intros Hm Hk w Hw. unfold bind. specialize (Hm w Hw).
  destruct (m w) as [a w1| |]; [|exact Hm|exact I].
  exact (Hk a w1 Hm).
Qed.

Lemma keeps_print (s : string) : keeps Inv (print s).
Proof. intros w Hw. exact Hw. Qed.

Lemma keeps_lift {A : Type} (r : res A) : keeps Inv (lift r).
Proof. intros w Hw. unfold lift. destruct r; exact Hw. Qed.

Lemma keeps_deal (fuel : nat) (seed : option Z) :
  keeps Inv (deal_btn_open_and_board fuel seed).
Proof.
  intros w Hw.
  pose proof (deal_frame fuel seed w (stdout w) (environ w)) as Hf.
  rewrite <- world_eta in Hf.
  destruct (deal_btn_open_and_board fuel seed w) as [d w1|x w1|];
    cbn [reworld] in Hf; [| |exact I];
    injection Hf as Hf; rewrite Hf; exact Hw.
Qed.

Lemma keeps_wait (fuel : nat) (timeout_seconds : Z) :
  keeps Inv (wait_for_key_with_timeout fuel timeout_seconds).
Proof.
  intros w Hw. rewrite wait_unfold.
  match goal with
  | |- match countdown _ _ ?s ?k ?W with _ => _ end =>
      pose proof (countdown_invariant Inv Inv_step Inv_sched Inv_ticks
                    Inv_sigint fuel timeout_seconds s k W) as H
  end.
  cbn [environ] in H.
  specialize (H (Inv_start _ (Inv_ticks _ _ Hw))).
  destruct (countdown _ _ _ _ _) as [b w1|x w1|]; [apply H|exact H|exact I].
Qed.

Lemma keeps_hands_loop (fuel : nat) (todo : list Z) (seed : option Z)
      (timeout : Z) :
  keeps Inv (hands_loop fuel todo seed timeout).
Proof.
  revert seed. induction todo as [|i rest IH]; intros seed; cbn [hands_loop].
  - intros w Hw. exact Hw.
  - apply keeps_bind; [apply keeps_deal|]. intros [hand board].
    repeat first
      [ apply IH
      | apply keeps_bind;
        [ first [apply keeps_print | apply keeps_lift | apply keeps_wait]
        | intros ? ] ].
Qed.

Lemma keeps_main (fuel : nat) (hands : Z) (seed : option Z) (timeout : Z) :
  keeps Inv (main fuel hands seed timeout).
Proof.
  unfold main. apply keeps_bind; [apply keeps_hands_loop|].
  intros _. apply keeps_print.
Qed.

End Keeps.

Lemma calm_start (e0 e : env) :
  calm e0 e ->
  calm e0 (set_threads (threads e ++ [(AtEntry, length (events e))])
             (set_events (events e ++ [false]) e)).
Proof.
  intros (Hf & Hi & Hc & Ht & Hk & Hx).
  repeat split; try assumption.
  unfold watchers_idle. cbn [threads set_threads].
  apply Forall_app. split; [exact Hi|]. constructor; [now left|constructor].
Qed.

(** X15: how the script ends.  Nothing but [KeyboardInterrupt] can leave
    [main] (no card it formats is malformed, no index is out of range),
    and that only if an interrupt signal was on its way to the process.
    Where standard input has no file descriptor, so that every watcher
    returns at once and no thread ever dies, a script that ends exits
    with status 0, its last line being the closing line if [main]
    returned and the stop notice if [main] was interrupted; no thread
    exception was reported and the terminal was left alone. *)
Theorem script_exit_status
    (R : Random) (fuel : nat) (hands : Z) (seed : option Z) (timeout : Z)
    (w : world) :
  shuffle_permutes R ->
  (forall e w1,
      main fuel hands seed timeout w = Exn e w1 ->
      e = KeyboardInterrupt /\ sigint (environ w) <> []) /\
  (has_fileno (environ w) = false ->
   watchers_idle (environ w) ->
   forall code w',
     script fuel hands seed timeout w = Some (code, w') ->
     code = 0%Z /\
     excepthook (environ w') = excepthook (environ w) /\
     tty (environ w') = tty (environ w) /\
     watchers_idle (environ w') /\
     ((main fuel hands seed timeout w = Ret tt w' /\
       last (stdout w') "" = DONE_LINE) \/
      (exists w1, main fuel hands seed timeout w = Exn KeyboardInterrupt w1 /\
                  stdout w' = (stdout w1 ++ [STOPPED_LINE])%list /\
                  last (stdout w') "" = STOPPED_LINE))).
Proof.
  intros HR.
  pose proof (interrupt_only_main HR fuel hands seed timeout w) as Hi.
  split.
  - intros e w1 E. rewrite E in Hi. subst e. split; [reflexivity|].
    intros Hs.
    destruct (keys_never_interrupt_main HR fuel hands seed timeout w
                (mkWorld R (rng w1) (stdout w1 ++ [STOPPED_LINE]) (environ w1))
                0%Z Hs) as [Hm _].
    + unfold script. rewrite E. reflexivity.
    + rewrite E in Hm. discriminate Hm.
  - intros Hf Hidle code w' H.
    pose proof (keeps_main (calm (environ w))
                  (fun i e => calm_thread_step _ e i)
                  (fun _ _ H => H) (fun _ _ H => H) (fun _ _ H => H)
                  (calm_start _)
                  fuel hands seed timeout w) as Hk.
    assert (Hc0 : calm (environ w) (environ w)) by (repeat split; assumption).
    specialize (Hk Hc0).
    unfold script in H.
    destruct (main fuel hands seed timeout w) as [[] w1|x w1|] eqn:E;
      [| |discriminate].
    + injection H as <- <-.
      destruct Hk as (_ & Hid & _ & Ht & _ & Hx).
      split; [reflexivity|]. split; [exact Hx|]. split; [exact Ht|].
      split; [exact Hid|]. left. split; [reflexivity|].
      unfold main in E. bind_inv E as u0 w0 HL.
      injection E as <-. cbn [stdout]. apply last_last.
    + cbn in Hi. subst x. cbn in H. injection H as <- <-.
      destruct Hk as (_ & Hid & _ & Ht & _ & Hx).
      split; [reflexivity|]. split; [exact Hx|]. split; [exact Ht|].
      split; [exact Hid|]. right.
      exists w1. split; [reflexivity|]. split; [reflexivity|].
      cbn [stdout]. apply last_last.
Qed.

Lemma script_exit_status_witness :
  let w := mkWorld lcg_random 7%Z [] (interrupted_after 2 headless) in
  exists w' w1,
    script 40 2 (Some 42%Z) 1 w = Some (0%Z, w') /\
    main 40 2 (Some 42%Z) 1 w = Exn KeyboardInterrupt w1 /\
    last (stdout w') "" = STOPPED_LINE /\
    excepthook (environ w') = [].
Proof.
  intros w.
  assert (Obs : match script 40 2 (Some 42%Z) 1 w with
                | Some (c, _) => (c =? 0)%Z
                | None => false
                end = true) by (vm_compute; reflexivity).
  assert (Obs2 : returned (main 40 2 (Some 42%Z) 1 w) = None)
    by (vm_compute; reflexivity).
  destruct (script 40 2 (Some 42%Z) 1 w) as [[c w']|] eqn:E; [|discriminate Obs].
  apply Z.eqb_eq in Obs. subst c.
  destruct (script_exit_status lcg_random 40 2 (Some 42%Z) 1 w
              lcg_shuffle_permutes) as [_ Hs].
  destruct (Hs eq_refl (Forall_nil _) 0%Z w' E)
    as (_ & Hx & _ & _ & [[Hm _]|(w1 & Hm & _ & Hl)]).
  - rewrite Hm in Obs2. discriminate Obs2.
  - exists w', w1. auto.
Defined.

(** ** The countdown display *)

Lemma clock_monotone_le (e : env) (m n : nat) :
  clock_monotone e -> m <= n -> (clock e m <= clock e n)%Q.
Proof.
  intros Hm Hle. induction Hle as [|n Hle IH]; [apply Qle_refl|].
  eapply Qle_trans; [exact IH|apply Hm].
Qed.

Lemma int_of_nonneg (x : Q) : (0 <= x)%Q -> (0 <= int_of x)%Z.
Proof.
  intros H. unfold int_of. apply Z.quot_pos; [|lia].
  unfold Qle in H. simpl in H. lia.
Qed.

Section Display.
Context {R : Random}.

Lemma countdown_display (fuel : nat) (timeout_seconds : Z) (start_time : Q)
      (key_pressed : nat) (w w' : world) (b : bool) :
  countdown fuel timeout_seconds start_time key_pressed w = Ret b w' ->
  exists rs,
    stdout w' =
      (stdout w ++ map countdown_frame rs ++ [CLEAR_COUNTDOWN])%list /\
    ((forall n, ticks (environ w) <= n ->
                (start_time <= clock (environ w) n)%Q) ->
     Forall (fun r => (r <= timeout_seconds)%Z) rs).
Proof.
  revert w. induction fuel as [|fuel IH]; intros w; cbn [countdown];
    [discriminate|].
  unfold bind, with_env, time_time, event_is_set, print_end, ret, time_sleep.
  cbn [rng stdout environ].
  destruct (run_scheduled_device (environ w)) as (Hc & Ht & _).
  destruct (Qltb _ _).
  - destruct (nth key_pressed _ false).
    + intros [= <- <-]. exists []. split; [reflexivity|]. constructor.
    + assert (Hrec : forall e1,
                clock e1 = clock (environ w) ->
                ticks e1 = S (S (ticks (environ w))) ->
                countdown fuel timeout_seconds start_time key_pressed
                  (mkWorld R (rng w)
                     (stdout w ++
                      [(CR ++ TAB ++ TAB ++
                        fmt_2d (timeout_seconds -
                                int_of (clock (run_scheduled (environ w))
                                          (S (ticks (run_scheduled (environ w))))
                                        - start_time)) ++ "s") ++ ""]) e1)
                = Ret b w' ->
                exists rs,
                  stdout w' =
                    (stdout w ++ map countdown_frame rs ++ [CLEAR_COUNTDOWN])%list /\
                  ((forall n, ticks (environ w) <= n ->
                              (start_time <= clock (environ w) n)%Q) ->
                   Forall (fun r => (r <= timeout_seconds)%Z) rs)).
      { intros e1 Hc1 Ht1 H. apply IH in H. cbn [environ stdout] in H.
        destruct H as (rs & Ho & Hb). rewrite str_append_nil_r in Ho.
        eexists (_ :: rs). split.
        - rewrite Ho, <- app_assoc. reflexivity.
        - intros Hs. constructor.
          + rewrite Hc, Ht.
            pose proof (Hs (S (ticks (environ w))) ltac:(lia)) as H1.
            assert (H2 : (0 <= clock (environ w) (S (ticks (environ w)))
                               - start_time)%Q) by lra.
            apply int_of_nonneg in H2. lia.
          + apply Hb. intros n Hn. rewrite Hc1. apply Hs. lia. }
      destruct (sigint _) as [|[|] later]; try discriminate;
        apply Hrec; cbn; congruence.
  - intros [= <- <-]. exists []. split; [reflexivity|]. constructor.
Qed.

Lemma wait_display (fuel : nat) (timeout_seconds : Z) (w w' : world) (b : bool) :
  wait_for_key_with_timeout fuel timeout_seconds w = Ret b w' ->
  exists rs,
    stdout w' =
      (stdout w ++ map countdown_frame rs ++ [CLEAR_COUNTDOWN])%list /\
    (clock_monotone (environ w) ->
     Forall (fun r => (r <= timeout_seconds)%Z) rs).
Proof.
  intros H. rewrite wait_unfold in H. apply countdown_display in H.
  cbn [stdout environ] in H. destruct H as (rs & Ho & Hb).
  exists rs. split; [exact Ho|]. intros Hm. apply Hb.
  intros n Hn. cbn in Hn |- *. apply clock_monotone_le; [exact Hm|lia].
Qed.

End Display.

(** X21: what a wait writes.  A wait that returns has written some frames
    of the countdown and then, exactly once and last, the text that
    blanks it; nothing else.  If the clock does not run backwards no
    frame shows more seconds than the timeout. *)
Theorem wait_writes_countdown_then_clears_it
    (R : Random) (fuel : nat) (timeout_seconds : Z) (w w' : world) (b : bool) :
  wait_for_key_with_timeout fuel timeout_seconds w = Ret b w' ->
  exists remaining,
    stdout w' =
      (stdout w ++ map countdown_frame remaining ++ [CLEAR_COUNTDOWN])%list /\
    (clock_monotone (environ w) ->
     Forall (fun r => (r <= timeout_seconds)%Z) remaining).
Proof. apply wait_display. Qed.

Lemma wait_writes_countdown_then_clears_it_witness :
  let w := mkWorld lcg_random 7%Z [] headless in
  exists w' remaining,
    wait_for_key_with_timeout 40 1 w = Ret false w' /\
    stdout w' = (map countdown_frame remaining ++ [CLEAR_COUNTDOWN])%list /\
    Forall (fun r => (r <= 1)%Z) remaining.
Proof.
  intros w.
  assert (Obs : returned (wait_for_key_with_timeout 40 1 w) = Some false)
    by (vm_compute; reflexivity).
  destruct (wait_for_key_with_timeout 40 1 w) as [b w'| |] eqn:E;
    try discriminate Obs.
  injection Obs as ->.
  destruct (wait_writes_countdown_then_clears_it lcg_random 40 1 w w' false E)
    as (rs & Ho & Hb).
  exists w', rs. split; [reflexivity|]. split; [exact Ho|].
  apply Hb. exact headless_monotone.
Defined.

(** X22: [wait_for_key] writes its prompt as a line of its own unless the
    prompt is empty, then waits with the timeout of 600 seconds: what
    follows the prompt is the countdown of that wait, no frame of which
    shows more than 600 seconds if the clock does not run backwards.  It
    returns nothing, so that its caller cannot tell a key from the
    timeout; and if nobody presses SPACE or ENTER the wait was not ended
    by a key: its event is still unset. *)
Theorem wait_for_key_prompt_and_timeout
    (R : Random) (fuel : nat) (prompt : string) (w w' : world) :
  wait_for_key fuel prompt w = Ret tt w' ->
  let e := environ w in
  let e' := environ w' in
  (exists remaining,
     stdout w' =
       (stdout w ++ (if String.eqb prompt "" then [] else [prompt ++ NL]%string)
        ++ map countdown_frame remaining ++ [CLEAR_COUNTDOWN])%list /\
     (clock_monotone e -> Forall (fun r => (r <= 600)%Z) remaining)) /\
  rng w' = rng w /\
  (no_continue_key (keys e) ->
   events e' = (events e ++ [false])%list /\ no_continue_key (keys e')).
Proof.
  intros H e e'. unfold wait_for_key in H.
  bind_inv H as u0 w1 HP. bind_inv H as b w2 HW. injection H as <-.
  assert (Hw1 : stdout w1 =
                (stdout w ++ (if String.eqb prompt "" then []
                              else [prompt ++ NL]%string))%list /\
                rng w1 = rng w /\ environ w1 = e).
  { destruct (String.eqb prompt "").
    - injection HP as _ <-. rewrite app_nil_r. auto.
    - injection HP as _ <-. auto. }
  destruct Hw1 as (Ho1 & Hr1 & He1).
  split; [|split].
  - apply wait_display in HW as (rs & Ho & Hb). exists rs. split.
    + rewrite Ho, Ho1, <- app_assoc. reflexivity.
    + intros Hm. apply Hb. rewrite He1. exact Hm.
  - apply wait_Ret in HW as [-> _]. exact Hr1.
  - intros Hk. rewrite <- He1 in Hk.
    apply (wait_unattended _ _ _ _ _ Hk) in HW as (_ & He & Hk').
    rewrite He1 in He. auto.
Qed.

Lemma wait_for_key_prompt_and_timeout_witness :
  let w := mkWorld lcg_random 7%Z []
             (terminal [None; Some "013"%char] [[0]; [0]; [0]]) in
  exists w' remaining,
    wait_for_key 40 "Press SPACE" w = Ret tt w' /\
    stdout w' = (["Press SPACE" ++ NL]%string ++
                 map countdown_frame remaining ++ [CLEAR_COUNTDOWN])%list.
Proof.
  intros w.
  assert (Obs : returned (wait_for_key 40 "Press SPACE" w) = Some tt)
    by (vm_compute; reflexivity).
  destruct (wait_for_key 40 "Press SPACE" w) as [[] w'| |] eqn:E;
    try discriminate Obs.
  destruct (wait_for_key_prompt_and_timeout lcg_random 40 "Press SPACE" w w' E)
    as ((rs & Ho & _) & _).
  exists w', rs. split; [reflexivity|exact Ho].
Defined.

(** ** A key press *)




Section KeyPress.
Context {R : Random}.



End KeyPress.


Section KeyPressRun.
Context {R : Random}.


End KeyPressRun.


